(** * A price-time priority limit order book

    Shallow embedding of [order_book.py] (class [LimitOrderBook]) and the
    properties of its matching engine.

    Modelling conventions.
    - Quantities are Python integers: [Z].  Prices are exact integers (ticks)
      or [None]; the engine only orders and compares prices, so no arithmetic
      on them is modelled.
    - [order.side], [order.type] and the report status are the strings the
      source compares and writes.
    - An ordering comparison ([<], [>]) with [None] raises [TypeError] in
      Python; [==] never raises.  A call that raises is the outcome
      [TypeError]; what the interrupted call leaves behind is not described.
    - The two [while] loops of the engine run on fuel; running out of fuel is
      an outcome of its own, so termination is a theorem and not a property
      of the encoding.
    - Objects mutated in place (the incoming order, the resting orders, the
      two sequences of the book) are returned in their final state.  Every
      resting order is an object of its own, and so is the incoming order.
    - [datetime.now] is an oracle: [now k] is the k-th reading of the clock
      during one call of a matching method. *)

From Stdlib Require Import ZArith List String Bool Lia Sorting.Sorted.
Import ListNotations.
Open Scope string_scope.
Open Scope Z_scope.

(** ** Outcomes and the error monad *)

Inductive result (A : Type) : Type :=
| Ok (a : A)
| TypeError
| OutOfFuel.

Arguments Ok {A} a.
Arguments TypeError {A}.
Arguments OutOfFuel {A}.

Definition bind {A B : Type} (m : result A) (k : A -> result B) : result B :=
  match m with
  | Ok a => k a
  | TypeError => TypeError
  | OutOfFuel => OutOfFuel
  end.

Notation "x <- m ;; k" := (bind m (fun x => k))
  (at level 61, m at next level, right associativity).
Notation "' pat <- m ;; k" := (bind m (fun pat => k))
  (at level 61, pat pattern, m at next level, right associativity).

(** ** Data model *)

(** The class [Order] (module [order]) is imported by the source; its fields
    are the ones the engine reads and writes. *)
Record Order : Type := mkOrder {
  id : string;
  symbol : string;
  side : string;
  type : string;
  price : option Z;
  quantity : Z
}.

(** [order.quantity = q], an assignment to the one mutable field. *)
Definition with_quantity (o : Order) (q : Z) : Order :=
  mkOrder (id o) (symbol o) (side o) (type o) (price o) q.

Definition with_type (o : Order) (t : string) : Order :=
  mkOrder (id o) (symbol o) (side o) t (price o) (quantity o).

(** An execution report: the dict built in the matching loops. *)
Record Report : Type := mkReport {
  order_id : string;
  rep_symbol : string;
  rep_side : string;
  filled_qty : Z;
  rep_price : option Z;
  timestamp : Z;
  status : string
}.

Record LimitOrderBook : Type := mkBook {
  book_symbol : string;
  bids : list Order;
  asks : list Order
}.

(** [LimitOrderBook.__init__] *)
Definition init (sym : string) : LimitOrderBook := mkBook sym [] [].

(** ** Python comparisons on prices *)

Definition py_gt (a b : option Z) : result bool :=
  match a, b with
  | Some x, Some y => Ok (y <? x)
  | _, _ => TypeError
  end.

Definition py_lt (a b : option Z) : result bool :=
  match a, b with
  | Some x, Some y => Ok (x <? y)
  | _, _ => TypeError
  end.

Definition py_eq (a b : option Z) : bool :=
  match a, b with
  | Some x, Some y => x =? y
  | None, None => true
  | _, _ => false
  end.

(** ** The matching loops *)

(** The variables a matching loop works on: the incoming order, the opposite
    sequence (an alias of [self.asks] or [self.bids]), the reports appended so
    far and the number of clock readings made. *)
Record MatchState : Type := mkState {
  st_order : Order;
  st_opposite : list Order;
  st_reports : list Report;
  st_clock : nat
}.

Inductive flow : Type :=
| Continue (s : MatchState)
| Break (s : MatchState).

Definition status_of (done : bool) : string :=
  if done then "filled" else "partial_fill".

Section Engine.

Variable now : nat -> Z.

(** [while order.quantity > 0 and opposite: best = opposite[0]; body].
    One unit of fuel is spent per execution of the body. *)
Fixpoint while_matching (body : MatchState -> Order -> list Order -> result flow)
    (fuel : nat) (s : MatchState) {struct fuel} : result MatchState :=
  if 0 <? quantity (st_order s) then
    match st_opposite s with
    | [] => Ok s
    | best :: rest =>
        match fuel with
        | O => OutOfFuel
        | S fuel' =>
            match body s best rest with
            | Ok (Continue s') => while_matching body fuel' s'
            | Ok (Break s') => Ok s'
            | TypeError => TypeError
            | OutOfFuel => OutOfFuel
            end
        end
    end
  else Ok s.

(** [opposite.pop(0)] when the resting order is used up; otherwise the head
    stays, with its reduced quantity. *)
Definition settle_head (best' : Order) (rest : list Order) : list Order :=
  if quantity best' =? 0 then rest else best' :: rest.

(** Body of the loop of [_match_limit] (lines 56-97). *)
Definition match_limit_body (s : MatchState) (best : Order) (rest : list Order)
    : result flow :=
  let order := st_order s in
  stop_buy <- (if (side order =? "buy")%string then py_gt (price best) (price order)
               else Ok false) ;;
  if stop_buy then Ok (Break s) else
  stop_sell <- (if (side order =? "sell")%string then py_lt (price best) (price order)
                else Ok false) ;;
  if stop_sell then Ok (Break s) else
  let fill_qty := Z.min (quantity order) (quantity best) in
  let trade_price := price best in
  let ts := now (st_clock s) in
  let taker := mkReport (id order) (symbol order) (side order) fill_qty
                 trade_price ts
                 (status_of (quantity order - fill_qty =? 0)) in
  let maker := mkReport (id best) (symbol best) (side best) fill_qty
                 trade_price ts
                 (status_of (quantity best - fill_qty =? 0)) in
  let order' := with_quantity order (quantity order - fill_qty) in
  let best' := with_quantity best (quantity best - fill_qty) in
  Ok (Continue (mkState order' (settle_head best' rest)
                  (st_reports s ++ [taker; maker]) (S (st_clock s)))).

(** Body of the loop of [_execute_market] (lines 110-143). *)
Definition execute_market_body (s : MatchState) (best : Order)
    (rest : list Order) : result flow :=
  let order := st_order s in
  let fill_qty := Z.min (quantity order) (quantity best) in
  let trade_price := price best in
  let ts := now (st_clock s) in
  let order' := with_quantity order (quantity order - fill_qty) in
  let best' := with_quantity best (quantity best - fill_qty) in
  let market_status :=
    status_of ((quantity order' =? 0)
               || ((quantity best' =? 0)
                   && (Nat.eqb (List.length (best :: rest)) 1))) in
  let taker := mkReport (id order) (symbol order) (side order) fill_qty
                 trade_price ts market_status in
  let maker := mkReport (id best) (symbol best) (side best) fill_qty
                 trade_price ts (status_of (quantity best' =? 0)) in
  Ok (Continue (mkState order' (settle_head best' rest)
                  (st_reports s ++ [taker; maker]) (S (st_clock s)))).

(** [self.asks if order.side == "buy" else self.bids] *)
Definition opposite_of (self : LimitOrderBook) (order : Order) : list Order :=
  if (side order =? "buy")%string then asks self else bids self.

(** The opposite sequence is mutated in place; this writes its final value
    back in the book. *)
Definition store_opposite (self : LimitOrderBook) (order : Order)
    (l : list Order) : LimitOrderBook :=
  if (side order =? "buy")%string then mkBook (book_symbol self) (bids self) l
  else mkBook (book_symbol self) l (asks self).

Definition start (self : LimitOrderBook) (order : Order) : MatchState :=
  mkState order (opposite_of self order) [] O.

(** What a matching method leaves: the returned reports, the book and the
    incoming order as mutated. *)
Definition finish (self : LimitOrderBook) (s : MatchState)
    : list Report * LimitOrderBook * Order :=
  (st_reports s, store_opposite self (st_order s) (st_opposite s), st_order s).

Definition _match_limit (fuel : nat) (self : LimitOrderBook) (order : Order)
    : result (list Report * LimitOrderBook * Order) :=
  s <- while_matching match_limit_body fuel (start self order) ;;
  Ok (finish self s).

Definition _execute_market (fuel : nat) (self : LimitOrderBook) (order : Order)
    : result (list Report * LimitOrderBook * Order) :=
  s <- while_matching execute_market_body fuel (start self order) ;;
  Ok (finish self s).

(** ** Resting insertion *)

(** Inner loop: [while idx < len(book) and book[idx].price == order.price].
    [suffix] is [book[idx:]]. *)
Fixpoint skip_same_price (order : Order) (suffix : list Order) (idx : nat)
    : nat :=
  match suffix with
  | [] => idx
  | x :: suffix' =>
      if py_eq (price x) (price order)
      then skip_same_price order suffix' (S idx)
      else idx
  end.

(** Outer loop: [while idx < len(book)]. [suffix] is [book[idx:]]. *)
Fixpoint insertion_index (order : Order) (suffix : list Order) (idx : nat)
    : result nat :=
  match suffix with
  | [] => Ok idx
  | x :: suffix' =>
      if (side order =? "buy")%string then
        better <- py_gt (price x) (price order) ;;
        if better then insertion_index order suffix' (S idx)
        else Ok (skip_same_price order suffix idx)
      else
        better <- py_lt (price x) (price order) ;;
        if better then insertion_index order suffix' (S idx)
        else Ok (skip_same_price order suffix idx)
  end.

(** [list.insert(idx, x)] for [0 <= idx]; past the end it appends. *)
Definition list_insert {A : Type} (idx : nat) (x : A) (l : list A) : list A :=
  firstn idx l ++ x :: skipn idx l.

Definition _insert_resting (self : LimitOrderBook) (order : Order)
    : result LimitOrderBook :=
  if (side order =? "buy")%string then
    idx <- insertion_index order (bids self) O ;;
    Ok (mkBook (book_symbol self) (list_insert idx order (bids self)) (asks self))
  else
    idx <- insertion_index order (asks self) O ;;
    Ok (mkBook (book_symbol self) (bids self) (list_insert idx order (asks self))).

(** ** Dispatch *)

Definition add_order (fuel : nat) (self : LimitOrderBook) (order : Order)
    : result (list Report * LimitOrderBook * Order) :=
  if (type order =? "market")%string then
    '(reports, self', order') <- _execute_market fuel self order ;;
    Ok (([] ++ reports)%list, self', order')
  else if (type order =? "limit")%string then
    '(reports, self', order') <- _match_limit fuel self order ;;
    if 0 <? quantity order' then
      self'' <- _insert_resting self' order' ;;
      Ok (([] ++ reports)%list, self'', order')
    else Ok (([] ++ reports)%list, self', order')
  else
    '(reports, self', order') <- _match_limit fuel self order ;;
    if 0 <? quantity order' then
      self'' <- _insert_resting self' order' ;;
      Ok (([] ++ reports)%list, self'', order')
    else Ok (([] ++ reports)%list, self', order').

End Engine.

(** * Specification vocabulary *)

(** ** Book invariants *)

(** [price_rel R a b]: both prices are defined and related by [R]. *)
Definition price_rel (R : Z -> Z -> Prop) (a b : option Z) : Prop :=
  match a, b with
  | Some x, Some y => R x y
  | _, _ => False
  end.

(** Priority between two prices of one side: bids rank by descending price,
    asks by ascending price. *)
Definition goes_before (buy : bool) (p q : Z) : Prop :=
  if buy then q <= p else p <= q.

Definition has_price (x : Order) : Prop := price x <> None.

Definition in_priority (buy : bool) (x y : Order) : Prop :=
  price_rel (goes_before buy) (price x) (price y).

(** A side is sorted when every order has a price and every order ranks
    before all the orders behind it; the position in the sequence is the
    arrival order among equal prices. *)
Definition side_sorted (buy : bool) (l : list Order) : Prop :=
  Forall has_price l /\ StronglySorted (in_priority buy) l.

Definition all_positive (l : list Order) : Prop :=
  Forall (fun x => 0 < quantity x) l.

(** Best bid strictly below best ask when both sides are non-empty. *)
Definition not_crossed (b : LimitOrderBook) : Prop :=
  forall bb ba, hd_error (bids b) = Some bb -> hd_error (asks b) = Some ba ->
    price_rel Z.lt (price bb) (price ba).

Record book_inv (b : LimitOrderBook) : Prop := mkInv {
  inv_bids_sorted : side_sorted true (bids b);
  inv_asks_sorted : side_sorted false (asks b);
  inv_bids_positive : all_positive (bids b);
  inv_asks_positive : all_positive (asks b);
  inv_not_crossed : not_crossed b
}.

(** The side an order rests on, as [_insert_resting] chooses it. *)
Definition own_side (self : LimitOrderBook) (order : Order) : list Order :=
  if (side order =? "buy")%string then bids self else asks self.

(** The reports at even positions: the taker's report of every pair. *)
Fixpoint takers (l : list Report) : list Report :=
  match l with
  | t :: _ :: l' => t :: takers l'
  | _ => []
  end.

Definition total_filled (l : list Report) : Z :=
  fold_right (fun r acc => filled_qty r + acc) 0 l.

(** ** Fills and runs *)

(** What one execution of a loop body does to the loop variables when it
    fills: [f] is the filled quantity, [tk] and [mk] the two reports. *)
Record fill_step (s : MatchState) (best : Order) (rest : list Order)
    (s' : MatchState) (f : Z) (tk mk : Report) : Prop := mkFill {
  fill_qty_min : f = Z.min (quantity (st_order s)) (quantity best);
  fill_order : st_order s' = with_quantity (st_order s) (quantity (st_order s) - f);
  fill_opposite :
    st_opposite s' = settle_head (with_quantity best (quantity best - f)) rest;
  fill_reports : st_reports s' = (st_reports s ++ [tk; mk])%list;
  fill_clock : st_clock s' = S (st_clock s);
  fill_taker_qty : filled_qty tk = f;
  fill_maker_qty : filled_qty mk = f;
  fill_taker_id : order_id tk = id (st_order s);
  fill_maker_id : order_id mk = id best;
  fill_taker_price : rep_price tk = price best;
  fill_maker_price : rep_price mk = price best;
  fill_maker_status : status mk = status_of (quantity best - f =? 0)
}.

(** [q] ranks strictly behind [p] on a side. *)
Definition strictly_behind (buy : bool) (p q : Z) : Prop :=
  if buy then q < p else p < q.

(** [l] splits in [l1], whose orders rank before or with an order of
    price [p], and [l2], whose orders rank strictly behind it. *)
Definition splits_at (buy : bool) (p : Z) (l l1 l2 : list Order) : Prop :=
  l = (l1 ++ l2)%list /\
  Forall (fun x => price_rel (goes_before buy) (price x) (Some p)) l1 /\
  Forall (fun x => price_rel (strictly_behind buy) (Some p) (price x)) l2.

(** A property of a sequence of resting orders is stable when it survives
    the removal of the head and a change of the head's quantity to another
    positive quantity. *)
Definition stable (Q : list Order -> Prop) : Prop :=
  forall best rest, Q (best :: rest) ->
    Q rest /\ forall q, 0 < q -> Q (with_quantity best q :: rest).

(** The loop variables of a run for the incoming order [o]: the order
    changes in its quantity only, the reports come in pairs and the taker
    reports account for what the order has lost. *)
Record run_inv (o : Order) (Q : list Order -> Prop) (s : MatchState) : Prop :=
  mkRun {
  run_order : st_order s = with_quantity o (quantity (st_order s));
  run_opposite : Q (st_opposite s);
  run_pairs : exists n, List.length (st_reports s) = (2 * n)%nat;
  run_filled :
    quantity (st_order s) + total_filled (takers (st_reports s)) = quantity o
}.

(** The limit loop stopped on its price test: the head of the opposite
    sequence is strictly beyond the limit. *)
Definition price_stop (s : MatchState) : Prop :=
  exists best rest, st_opposite s = best :: rest /\
    ((side (st_order s) = "buy" /\
      py_gt (price best) (price (st_order s)) = Ok true) \/
     (side (st_order s) = "sell" /\
      py_lt (price best) (price (st_order s)) = Ok true)).

(** The book whose sequence on the side of the incoming order is [own] and
    whose other sequence is [opp]. *)
Definition book_of_sides (buy : bool) (sym : string) (own opp : list Order)
    : LimitOrderBook :=
  if buy then mkBook sym own opp else mkBook sym opp own.

(** [h], on the side of the incoming order, and [x], on the other side, do
    not cross. *)
Definition apart (buy : bool) (h x : Order) : Prop :=
  if buy then price_rel Z.lt (price h) (price x)
  else price_rel Z.lt (price x) (price h).

Definition heads_apart (buy : bool) (own opp : list Order) : Prop :=
  forall h x, hd_error own = Some h -> hd_error opp = Some x -> apart buy h x.

Record sides_inv (buy : bool) (own opp : list Order) : Prop := mkSides {
  sides_own_sorted : side_sorted buy own;
  sides_opp_sorted : side_sorted (negb buy) opp;
  sides_own_positive : all_positive own;
  sides_opp_positive : all_positive opp;
  sides_apart : heads_apart buy own opp
}.

(** What the opposite sequence keeps through a run: it stays sorted and
    positive, and none of its orders crosses the best order of the other
    side. *)
Definition kept (buy : bool) (own l : list Order) : Prop :=
  (side_sorted (negb buy) l /\ all_positive l) /\
  Forall (fun x => forall h, hd_error own = Some h -> apart buy h x) l.

(** [iterates body s0 s]: the loop started in [s0] is at the head of an
    iteration with loop variables [s]. *)
Inductive iterates (body : MatchState -> Order -> list Order -> result flow)
    (s0 : MatchState) : MatchState -> Prop :=
| iterates_start : iterates body s0 s0
| iterates_next : forall s best rest s',
    iterates body s0 s ->
    0 < quantity (st_order s) ->
    st_opposite s = best :: rest ->
    body s best rest = Ok (Continue s') ->
    iterates body s0 s'.

(** A fill event of the run started in [s0]: an iteration entered with
    loop variables [s] and resting order [best] that fills and leaves [s']. *)
Definition fill_event (body : MatchState -> Order -> list Order -> result flow)
    (s0 s : MatchState) (best : Order) (rest : list Order) (s' : MatchState)
    : Prop :=
  iterates body s0 s /\
  0 < quantity (st_order s) /\
  st_opposite s = best :: rest /\
  body s best rest = Ok (Continue s').

(** ** Examples used as witnesses *)

Definition ex_clock (k : nat) : Z := Z.of_nat k.

Definition ex_ask : Order := mkOrder "a1" "XYZ" "sell" "limit" (Some 20) 30.
Definition ex_bid : Order := mkOrder "b1" "XYZ" "buy" "limit" (Some 10) 100.
Definition ex_book : LimitOrderBook := mkBook "XYZ" [ex_bid] [ex_ask].

Definition ex_market_buy : Order := mkOrder "m1" "XYZ" "buy" "market" None 100.
Definition ex_limit_buy : Order := mkOrder "t1" "XYZ" "buy" "limit" (Some 25) 50.
Definition ex_stop_sell : Order := mkOrder "t2" "XYZ" "sell" "stop" (Some 12) 40.
Definition ex_void_sell : Order := mkOrder "t3" "XYZ" "sell" "limit" (Some 5) 0.
Definition ex_ask_later : Order := mkOrder "a2" "XYZ" "sell" "limit" (Some 20) 7.

(** A deeper book: two asks at the same price, in their order of arrival,
    and a third one further away; and a buy order that reaches the first
    two only. *)
Definition ex_deep_book : LimitOrderBook :=
  mkBook "XYZ" [ex_bid]
    [mkOrder "A" "XYZ" "sell" "limit" (Some 15) 10;
     mkOrder "B" "XYZ" "sell" "limit" (Some 15) 10;
     mkOrder "C" "XYZ" "sell" "limit" (Some 18) 5].
Definition ex_sweep : Order := mkOrder "t4" "XYZ" "buy" "limit" (Some 16) 25.

(** The loop variables after the one fill of [ex_market_buy], and of
    [ex_limit_buy], against [ex_book]. *)
Definition ex_market_after : MatchState :=
  match execute_market_body ex_clock (start ex_book ex_market_buy) ex_ask [] with
  | Ok (Continue s) => s
  | _ => start ex_book ex_market_buy
  end.

Definition ex_limit_after : MatchState :=
  match match_limit_body ex_clock (start ex_book ex_limit_buy) ex_ask [] with
  | Ok (Continue s) => s
  | _ => start ex_book ex_limit_buy
  end.

(** ** Comparing books *)

(** The path of a limit order, in the words of the specification: limit
    matching first, then resting insertion of a remainder with a positive
    quantity. *)
Definition limit_then_rest (now : nat -> Z) (fuel : nat)
    (self : LimitOrderBook) (order : Order)
    : result (list Report * LimitOrderBook * Order) :=
  '(reports, self', order') <- _match_limit now fuel self order ;;
  if 0 <? quantity order' then
    self'' <- _insert_resting self' order' ;;
    Ok (reports, self'', order')
  else Ok (reports, self', order').

(** The loop variables of the same run for the order retyped as [t]. *)
Definition retype_state (t : string) (s : MatchState) : MatchState :=
  mkState (with_type (st_order s) t) (st_opposite s) (st_reports s)
    (st_clock s).

(** Two resting orders at the same position of two books: the same order,
    or the incoming order [o1] in one book and [o2] in the other. *)
Definition same_up_to (o1 o2 x y : Order) : Prop :=
  x = y \/ (x = o1 /\ y = o2).

(** ** Whole calls *)

(** The loop body [add_order] runs for an order: the body of
    [_execute_market] for a market order, of [_match_limit] otherwise. *)
Definition body_of (now : nat -> Z) (o : Order)
    : MatchState -> Order -> list Order -> result flow :=
  if (type o =? "market")%string then execute_market_body now
  else match_limit_body now.

(** The loop variables a filling iteration leaves, whatever the loop:
    [taker_status] is the status the loop writes in the taker's report. *)
Definition filled_state (now : nat -> Z) (s : MatchState) (best : Order)
    (rest : list Order) (taker_status : string) : MatchState :=
  let order := st_order s in
  let f := Z.min (quantity order) (quantity best) in
  mkState (with_quantity order (quantity order - f))
    (settle_head (with_quantity best (quantity best - f)) rest)
    (st_reports s ++
     [mkReport (id order) (symbol order) (side order) f (price best)
        (now (st_clock s)) taker_status;
      mkReport (id best) (symbol best) (side best) f (price best)
        (now (st_clock s)) (status_of (quantity best - f =? 0))])
    (S (st_clock s)).

(** Sum of the remaining quantities of a sequence of orders. *)
Definition total_qty (l : list Order) : Z :=
  fold_right (fun x acc => quantity x + acc) 0 l.

(** The reports at odd positions: the maker's report of every pair. *)
Fixpoint makers (l : list Report) : list Report :=
  match l with
  | _ :: m :: l' => m :: makers l'
  | _ => []
  end.

(** [l] is a sequence of pairs of a taker's and a maker's report, each
    pair satisfying [P]. *)
Fixpoint all_pairs (P : Report -> Report -> Prop) (l : list Report) : Prop :=
  match l with
  | [] => True
  | t :: m :: l' => P t m /\ all_pairs P l'
  | _ => False
  end.

(** An execution price that is no worse than the limit of the order: at
    most the limit for a buy order, at least the limit for a sell order. *)
Definition within_limit (o : Order) (x : option Z) : Prop :=
  (side o = "buy" -> price_rel Z.le x (price o)) /\
  (side o = "sell" -> price_rel Z.ge x (price o)).

(** What a call that returned [(reports, b', o')] did, in terms of the
    loop variables [sf] at the end of its matching loop. *)
Record call_outcome (now : nat -> Z) (b : LimitOrderBook) (o : Order)
    (reports : list Report) (b' : LimitOrderBook) (o' : Order)
    (sf : MatchState) : Prop := mkOutcome {
  out_iterates : iterates (body_of now o) (start b o) sf;
  out_reports : reports = st_reports sf;
  out_order : o' = st_order sf;
  out_same_order : o' = with_quantity o (quantity o');
  out_symbol : book_symbol b' = book_symbol b;
  out_opposite : opposite_of b' o = st_opposite sf;
  out_exit :
    quantity o' <= 0 \/ st_opposite sf = [] \/
    (type o <> "market" /\ price_stop sf);
  out_own_market : type o = "market" -> own_side b' o = own_side b o;
  out_own_filled :
    type o <> "market" -> quantity o' <= 0 -> own_side b' o = own_side b o;
  out_own_rests :
    type o <> "market" -> 0 < quantity o' ->
    exists idx,
      insertion_index o' (own_side b o) O = Ok idx /\
      own_side b' o = list_insert idx o' (own_side b o)
}.

(** What the fills of a call leave of the opposite sequence [opp], told by
    the maker reports: either every reported order was filled for its whole
    quantity and removed, and [opp'] is the rest of [opp], untouched; or
    this holds of all the reported orders but the last, which stays at the
    head of [opp'] with its quantity less the fill reported for it, and the
    incoming order is left with [left = 0]. *)
Definition left_by_fills (opp : list Order) (reports : list Report)
    (opp' : list Order) (left : Z) : Prop :=
  (exists done,
     opp = (done ++ opp')%list /\
     map order_id (makers reports) = map id done /\
     map filled_qty (makers reports) = map quantity done) \/
  (left = 0 /\
   exists done h rem q',
     opp = (done ++ h :: rem)%list /\
     opp' = with_quantity h q' :: rem /\
     q' <> 0 /\
     map order_id (makers reports) = map id (done ++ [h]) /\
     map filled_qty (makers reports)
       = (map quantity done ++ [quantity h - q'])%list).

(** The clause of the specification as it is written: what a market order
    leaves unfilled shows in the returned reports only, so that the order
    comes back from the call as it was submitted. *)
Definition remainder_only_in_reports (now : nat -> Z) (fuel : nat)
    (b : LimitOrderBook) (o : Order) : Prop :=
  forall reports b' o',
    add_order now fuel b o = Ok (reports, b', o') -> o' = o.

(** The books a session can reach: the empty book of [__init__], then any
    call of [add_order] that returns, for an order that has a price unless
    it is a market order. *)
Inductive reachable (now : nat -> Z) (sym : string) : LimitOrderBook -> Prop :=
| reachable_init : reachable now sym (init sym)
| reachable_add : forall b o fuel reports b' o',
    reachable now sym b ->
    (type o <> "market" -> price o <> None) ->
    add_order now fuel b o = Ok (reports, b', o') ->
    reachable now sym b'.

(** * Lemmas *)

(** ** One fill *)

Section Loops.

Variable now : nat -> Z.

Lemma match_limit_body_fills : forall s best rest s',
  match_limit_body now s best rest = Ok (Continue s') ->
  exists f tk mk, fill_step s best rest s' f tk mk.
Proof.
  intros s best rest s' H. unfold match_limit_body in H.
  destruct (side (st_order s) =? "buy")%string;
    [destruct (py_gt (price best) (price (st_order s))) as [[|]| |]|];
    simpl in H; try discriminate;
    (destruct (side (st_order s) =? "sell")%string;
     [destruct (py_lt (price best) (price (st_order s))) as [[|]| |]|];
     simpl in H; try discriminate);
    injection H as <-; do 3 eexists; constructor; simpl; reflexivity.
Qed.

Lemma execute_market_body_fills : forall s best rest,
  exists s' f tk mk,
    execute_market_body now s best rest = Ok (Continue s') /\
    fill_step s best rest s' f tk mk.
Proof.
  intros. unfold execute_market_body.
  do 4 eexists. split; [reflexivity|]. constructor; simpl; reflexivity.
Qed.

Lemma execute_market_body_inv : forall s best rest fl,
  execute_market_body now s best rest = Ok fl ->
  exists s' f tk mk, fl = Continue s' /\ fill_step s best rest s' f tk mk.
Proof.
  intros s best rest fl H.
  destruct (execute_market_body_fills s best rest) as (s' & f & tk & mk & E & F).
  rewrite E in H. injection H as <-. eauto 6.
Qed.

(** A break of the limit loop leaves the loop variables as they are. *)
Lemma match_limit_body_break : forall s best rest s',
  match_limit_body now s best rest = Ok (Break s') ->
  s' = s /\
  ((side (st_order s) = "buy" /\ py_gt (price best) (price (st_order s)) = Ok true) \/
   (side (st_order s) = "sell" /\ py_lt (price best) (price (st_order s)) = Ok true)).
Proof.
  intros s best rest s' H. unfold match_limit_body in H.
  destruct (side (st_order s) =? "buy")%string eqn:Eb.
  - apply String.eqb_eq in Eb.
    destruct (py_gt (price best) (price (st_order s))) as [[|]| |] eqn:Eg;
      simpl in H; try discriminate.
    + injection H as <-. auto.
    + rewrite Eb in H. simpl in H. discriminate.
  - simpl in H.
    destruct (side (st_order s) =? "sell")%string eqn:Es.
    + apply String.eqb_eq in Es.
      destruct (py_lt (price best) (price (st_order s))) as [[|]| |] eqn:El;
        simpl in H; try discriminate.
      injection H as <-. auto.
    + simpl in H. discriminate.
Qed.

(** Every fill uses up the incoming order or removes the head of the
    opposite sequence. *)
Lemma fill_step_progress : forall s best rest s' f tk mk,
  fill_step s best rest s' f tk mk ->
  quantity (st_order s') = 0 \/ st_opposite s' = rest.
Proof.
  intros s best rest s' f tk mk F.
  rewrite (fill_order _ _ _ _ _ _ _ F), (fill_opposite _ _ _ _ _ _ _ F).
  rewrite (fill_qty_min _ _ _ _ _ _ _ F).
  unfold settle_head. simpl.
  destruct (Z.eqb_spec (quantity best - Z.min (quantity (st_order s)) (quantity best)) 0);
    [right; reflexivity | left; lia].
Qed.

Lemma while_matching_exit : forall body fuel s,
  quantity (st_order s) <= 0 -> while_matching body fuel s = Ok s.
Proof.
  intros body fuel s H. destruct fuel; simpl;
    destruct (Z.ltb_spec 0 (quantity (st_order s))); try lia; reflexivity.
Qed.

Lemma while_matching_fuel_mono : forall body fuel fuel' s s',
  while_matching body fuel s = Ok s' -> (fuel <= fuel')%nat ->
  while_matching body fuel' s = Ok s'.
Proof.
  induction fuel as [|fuel IH]; intros fuel' s s' H Hle.
  - destruct fuel'; simpl in *; destruct (0 <? quantity (st_order s)); auto;
      destruct (st_opposite s); auto; congruence.
  - destruct fuel' as [|fuel']; [lia|]. simpl in *.
    destruct (0 <? quantity (st_order s)); auto.
    destruct (st_opposite s) as [|best rest]; auto.
    destruct (body s best rest) as [[s1|s1]| |]; auto.
    apply IH; [assumption | lia].
Qed.

(** The loop rule.  [I] is the invariant, [B] what a break establishes and
    [E] says whether a [TypeError] is tolerated. *)
Lemma while_matching_rule :
  forall (body : MatchState -> Order -> list Order -> result flow)
         (I B : MatchState -> Prop) (E : Prop),
  (forall s best rest, I s -> 0 < quantity (st_order s) ->
     st_opposite s = best :: rest ->
     match body s best rest with
     | Ok (Continue s') =>
         I s' /\ (quantity (st_order s') <= 0 \/ st_opposite s' = rest)
     | Ok (Break s') => I s' /\ B s'
     | TypeError => E
     | OutOfFuel => False
     end) ->
  forall fuel s, I s -> (List.length (st_opposite s) <= fuel)%nat ->
  match while_matching body fuel s with
  | Ok s' => I s' /\ (quantity (st_order s') <= 0 \/ st_opposite s' = [] \/ B s')
  | TypeError => E
  | OutOfFuel => False
  end.
Proof.
  intros body I B E Hbody.
  induction fuel as [|fuel IH]; intros s HI Hlen.
  - simpl. destruct (Z.ltb_spec 0 (quantity (st_order s))); [|simpl; auto].
    destruct (st_opposite s) eqn:Eo; simpl in *; [auto | lia].
  - simpl. destruct (Z.ltb_spec 0 (quantity (st_order s))) as [Hq|Hq];
      [|simpl; auto].
    destruct (st_opposite s) as [|best rest] eqn:Eo.
    { simpl. rewrite Eo. auto. }
    specialize (Hbody s best rest HI Hq Eo).
    destruct (body s best rest) as [[s1|s1]| |]; auto.
    + destruct Hbody as [HI1 [Hz|Hr]].
      * rewrite while_matching_exit by assumption. auto.
      * apply IH; [assumption|]. rewrite Hr. simpl in Hlen. lia.
    + destruct Hbody. auto.
Qed.

End Loops.

(** ** Resting insertion keeps a side sorted *)

Lemma has_price_some : forall x, has_price x -> exists p, price x = Some p.
Proof.
  unfold has_price. intros x H. destruct (price x) as [p|]; [eauto | congruence].
Qed.

Lemma side_sorted_nil : forall buy, side_sorted buy [].
Proof. intros. split; constructor. Qed.

Lemma side_sorted_inv : forall buy x l,
  side_sorted buy (x :: l) ->
  has_price x /\ Forall (in_priority buy x) l /\ side_sorted buy l.
Proof.
  intros buy x l [Hp Hs]. inversion Hp; subst.
  apply StronglySorted_inv in Hs. destruct Hs as [Hs Hf].
  repeat split; assumption.
Qed.

Lemma side_sorted_cons : forall buy x l,
  has_price x -> Forall (in_priority buy x) l -> side_sorted buy l ->
  side_sorted buy (x :: l).
Proof.
  intros buy x l Hx Hf [Hp Hs]. split; constructor; assumption.
Qed.

Lemma side_sorted_app : forall buy l1 l2,
  side_sorted buy l1 -> side_sorted buy l2 ->
  Forall (fun x => Forall (in_priority buy x) l2) l1 ->
  side_sorted buy (l1 ++ l2).
Proof.
  induction l1 as [|x l1 IH]; intros l2 H1 H2 H12; simpl; [assumption|].
  apply side_sorted_inv in H1. destruct H1 as (Hx & Hf & H1).
  inversion H12; subst.
  apply side_sorted_cons; auto.
  apply Forall_app. split; assumption.
Qed.

Lemma side_sorted_app_inv : forall buy l1 l2,
  side_sorted buy (l1 ++ l2) ->
  side_sorted buy l1 /\ side_sorted buy l2 /\
  Forall (fun x => Forall (in_priority buy x) l2) l1.
Proof.
  induction l1 as [|x l1 IH]; intros l2 H; simpl in *.
  - split; [apply side_sorted_nil | split; [assumption | constructor]].
  - apply side_sorted_inv in H. destruct H as (Hx & Hf & H).
    apply Forall_app in Hf. destruct Hf as [Hf1 Hf2].
    destruct (IH _ H) as (H1 & H2 & H12).
    split; [apply side_sorted_cons; assumption|].
    split; [assumption | constructor; assumption].
Qed.

Section Insertion.

Variable order : Order.
Variable p : Z.
Hypothesis order_price : price order = Some p.

Let buy : bool := (side order =? "buy")%string.

Lemma skip_same_price_sorted : forall l idx,
  side_sorted buy l ->
  Forall (fun x => price_rel (goes_before buy) (Some p) (price x)) l ->
  exists l1 l2, splits_at buy p l l1 l2 /\
    skip_same_price order l idx = (idx + List.length l1)%nat.
Proof.
  induction l as [|x l IH]; intros idx Hs Hf.
  - exists [], []. repeat split; auto.
  - apply side_sorted_inv in Hs. destruct Hs as (Hx & Hxl & Hs).
    inversion Hf as [|? ? Hpx Hf']; subst.
    destruct (has_price_some _ Hx) as [px Epx].
    simpl. rewrite Epx, order_price in *. simpl in *.
    destruct (Z.eqb_spec px p) as [->|Hne].
    + destruct (IH (S idx) Hs Hf') as (l1 & l2 & (El & H1 & H2) & Ei).
      exists (x :: l1), l2. rewrite Ei. simpl. split; [|lia].
      repeat split; [rewrite El; reflexivity | | assumption].
      constructor; [|assumption]. rewrite Epx. simpl.
      unfold goes_before. destruct buy; lia.
    + exists [], (x :: l). simpl. split; [|lia].
      repeat split; [constructor|].
      assert (Hsx : strictly_behind buy p px).
      { unfold strictly_behind, goes_before in *. destruct buy; lia. }
      constructor; [rewrite Epx; exact Hsx|].
      rewrite Forall_forall in Hxl |- *. intros y Hy.
      specialize (Hxl y Hy). unfold in_priority in Hxl.
      rewrite Epx in Hxl. destruct (price y) as [py|]; simpl in *; [|assumption].
      unfold strictly_behind, goes_before in *. destruct buy; lia.
Qed.

Lemma insertion_index_sorted : forall l idx,
  side_sorted buy l ->
  exists l1 l2, splits_at buy p l l1 l2 /\
    insertion_index order l idx = Ok (idx + List.length l1)%nat.
Proof.
  induction l as [|x l IH]; intros idx Hs.
  - exists [], []. repeat split; auto.
  - pose proof Hs as Hs0.
    apply side_sorted_inv in Hs. destruct Hs as (Hx & Hxl & Hs).
    destruct (has_price_some _ Hx) as [px Epx].
    assert (Hcmp : (if buy then py_gt (price x) (price order)
                    else py_lt (price x) (price order))
                   = Ok (if buy then p <? px else px <? p)).
    { rewrite Epx, order_price. destruct buy; reflexivity. }
    assert (Hstep : forall c,
      (if buy then p <? px else px <? p) = c ->
      insertion_index order (x :: l) idx =
      if c then insertion_index order l (S idx)
      else Ok (skip_same_price order (x :: l) idx)).
    { intros c Ec. cbn [insertion_index]. fold buy.
      destruct buy; rewrite Hcmp; simpl; rewrite Ec; reflexivity. }
    destruct (if buy then p <? px else px <? p) eqn:Ec;
      rewrite (Hstep _ eq_refl).
    + destruct (IH (S idx) Hs) as (l1 & l2 & (El & H1 & H2) & Ei).
      exists (x :: l1), l2. rewrite Ei. simpl. split; [|f_equal; lia].
      repeat split; [rewrite El; reflexivity | | assumption].
      constructor; [|assumption]. rewrite Epx. simpl.
      unfold goes_before. destruct buy; lia.
    + destruct (skip_same_price_sorted (x :: l) idx Hs0) as (l1 & l2 & Hsp & Ei).
      * assert (Hpx : goes_before buy p px).
        { unfold goes_before. destruct buy; lia. }
        constructor; [rewrite Epx; exact Hpx|].
        rewrite Forall_forall in Hxl |- *. intros y Hy.
        specialize (Hxl y Hy). unfold in_priority in Hxl.
        rewrite Epx in Hxl. destruct (price y) as [py|]; simpl in *; [|assumption].
        unfold goes_before in *. destruct buy; lia.
      * exists l1, l2. rewrite Ei. auto.
Qed.

End Insertion.

Lemma list_insert_app : forall (A : Type) (l1 l2 : list A) (x : A),
  list_insert (List.length l1) x (l1 ++ l2) = (l1 ++ x :: l2)%list.
Proof.
  intros. unfold list_insert.
  rewrite firstn_app, firstn_all, Nat.sub_diag, skipn_app, skipn_all, Nat.sub_diag.
  simpl. rewrite app_nil_r. reflexivity.
Qed.

(** Placing an order between the orders that rank before or with it and
    the orders strictly behind it gives a sorted side. *)
Lemma splits_at_sorted : forall order p l l1 l2,
  price order = Some p ->
  side_sorted (side order =? "buy")%string l ->
  splits_at (side order =? "buy")%string p l l1 l2 ->
  side_sorted (side order =? "buy")%string (l1 ++ order :: l2).
Proof.
  intros order p l l1 l2 Ep Hs (El & H1 & H2). subst l.
  set (buy := (side order =? "buy")%string) in *.
  apply side_sorted_app_inv in Hs. destruct Hs as (Hs1 & Hs2 & H12).
  assert (Ho : Forall (in_priority buy order) l2).
  { rewrite Forall_forall in H2 |- *. intros y Hy. specialize (H2 y Hy).
    unfold in_priority. rewrite Ep. destruct (price y); simpl in *; [|assumption].
    unfold strictly_behind, goes_before in *. destruct buy; lia. }
  apply side_sorted_app; auto.
  - apply side_sorted_cons; auto. unfold has_price. congruence.
  - rewrite Forall_forall in H1, H12 |- *. intros x Hx.
    constructor; auto.
    specialize (H1 x Hx). unfold in_priority. rewrite Ep. exact H1.
Qed.

(** ** What the fills leave of the opposite sequence *)

Lemma stable_positive : stable all_positive.
Proof.
  intros best rest H. inversion H; subst. split; [assumption|].
  intros q Hq. constructor; assumption.
Qed.

Lemma stable_sorted : forall buy, stable (side_sorted buy).
Proof.
  intros buy best rest H. apply side_sorted_inv in H.
  destruct H as (Hx & Hf & Hs). split; [assumption|].
  intros q _. apply side_sorted_cons; assumption.
Qed.

Lemma stable_Forall : forall P : Order -> Prop,
  (forall x q, P x -> P (with_quantity x q)) -> stable (Forall P).
Proof.
  intros P HP best rest H. inversion H; subst. split; [assumption|].
  intros q _. constructor; auto.
Qed.

Lemma stable_and : forall Q1 Q2 : list Order -> Prop,
  stable Q1 -> stable Q2 -> stable (fun l => Q1 l /\ Q2 l).
Proof.
  intros Q1 Q2 H1 H2 best rest [HQ1 HQ2].
  destruct (H1 _ _ HQ1), (H2 _ _ HQ2). split; [split; assumption|].
  intros q Hq. split; auto.
Qed.

Lemma stable_true : stable (fun _ => True).
Proof. intros best rest _. auto. Qed.

Lemma fill_step_stable : forall Q s best rest s' f tk mk,
  stable Q -> fill_step s best rest s' f tk mk ->
  Q (best :: rest) -> Q (st_opposite s').
Proof.
  intros Q s best rest s' f tk mk HQ F H.
  rewrite (fill_opposite _ _ _ _ _ _ _ F). unfold settle_head. simpl.
  destruct (HQ _ _ H) as [Hr Hc].
  destruct (Z.eqb_spec (quantity best - f) 0); [assumption|].
  apply Hc. rewrite (fill_qty_min _ _ _ _ _ _ _ F) in *. lia.
Qed.

(** ** Accounting of the reports *)

Lemma takers_app_pair : forall n l a b,
  List.length l = (2 * n)%nat ->
  takers (l ++ [a; b]) = (takers l ++ [a])%list.
Proof.
  induction n as [|n IH]; intros l a b Hl.
  - destruct l; [reflexivity | discriminate].
  - destruct l as [|x [|y l]]; simpl in Hl; try lia.
    simpl. rewrite IH by lia. reflexivity.
Qed.

Lemma total_filled_app : forall l1 l2,
  total_filled (l1 ++ l2) = total_filled l1 + total_filled l2.
Proof.
  induction l1 as [|x l1 IH]; intros l2; simpl.
  - reflexivity.
  - unfold total_filled in *. simpl. rewrite IH. lia.
Qed.

Lemma run_inv_start : forall (o : Order) (Q : list Order -> Prop) l,
  Q l -> run_inv o Q (mkState o l [] O).
Proof.
  intros o Q l H. constructor; simpl.
  - destruct o; reflexivity.
  - assumption.
  - exists O. reflexivity.
  - unfold total_filled. simpl. lia.
Qed.

Lemma run_inv_fill : forall o Q s best rest s' f tk mk,
  stable Q -> run_inv o Q s -> st_opposite s = best :: rest ->
  fill_step s best rest s' f tk mk -> run_inv o Q s'.
Proof.
  intros o Q s best rest s' f tk mk HQ [Ho Hopp [n Hn] Hf] Eo F.
  constructor.
  - rewrite (fill_order _ _ _ _ _ _ _ F). rewrite Ho at 1. reflexivity.
  - eapply fill_step_stable; eauto. rewrite <- Eo. assumption.
  - exists (S n). rewrite (fill_reports _ _ _ _ _ _ _ F).
    rewrite length_app. simpl. lia.
  - rewrite (fill_reports _ _ _ _ _ _ _ F), (fill_order _ _ _ _ _ _ _ F).
    rewrite (takers_app_pair n) by assumption.
    rewrite total_filled_app. unfold total_filled at 2. simpl.
    rewrite (fill_taker_qty _ _ _ _ _ _ _ F). lia.
Qed.

(** ** The two loops, run to their end *)

Section Runs.

Variable now : nat -> Z.

Lemma match_limit_body_outcome : forall s best rest,
  match_limit_body now s best rest <> OutOfFuel /\
  (has_price best -> price (st_order s) <> None ->
   match_limit_body now s best rest <> TypeError).
Proof.
  intros s best rest. unfold match_limit_body, has_price.
  destruct (price best) as [pb|], (price (st_order s)) as [po|];
    destruct (side (st_order s) =? "buy")%string,
             (side (st_order s) =? "sell")%string; simpl;
    repeat match goal with
           | |- context [if ?c then _ else _] => destruct c; simpl
           end;
    split; try discriminate; intros; try discriminate; congruence.
Qed.

Lemma market_body_rule : forall o (Q : list Order -> Prop),
  stable Q ->
  forall s best rest, run_inv o Q s -> 0 < quantity (st_order s) ->
    st_opposite s = best :: rest ->
    match execute_market_body now s best rest with
    | Ok (Continue s') =>
        run_inv o Q s' /\ (quantity (st_order s') <= 0 \/ st_opposite s' = rest)
    | Ok (Break s') => run_inv o Q s' /\ False
    | TypeError => False
    | OutOfFuel => False
    end.
Proof.
  intros o Q HQ s best rest HI Hq Eo.
  destruct (execute_market_body_fills now s best rest)
    as (s1 & f & tk & mk & -> & F).
  split; [eapply run_inv_fill; eauto|].
  destruct (fill_step_progress _ _ _ _ _ _ _ F); [left; lia | right; assumption].
Qed.

Lemma market_loop_spec : forall o (Q : list Order -> Prop) l fuel,
  stable Q -> Q l -> (List.length l <= fuel)%nat ->
  exists s',
    while_matching (execute_market_body now) fuel (mkState o l [] O) = Ok s' /\
    run_inv o Q s' /\
    (quantity (st_order s') <= 0 \/ st_opposite s' = []).
Proof.
  intros o Q l fuel HQ Hl Hfuel.
  pose proof (while_matching_rule (execute_market_body now)
                (run_inv o Q) (fun _ => False) False
                (market_body_rule o Q HQ) fuel (mkState o l [] O)
                (run_inv_start o Q l Hl) Hfuel) as R.
  destruct (while_matching (execute_market_body now) fuel (mkState o l [] O))
    as [s'| |]; try contradiction.
  exists s'. destruct R as [HI Hex].
  split; [reflexivity|]. split; [assumption|].
  destruct Hex as [?|[?|[]]]; auto.
Qed.

Lemma limit_loop_spec : forall o (Q : list Order -> Prop) (E : Prop) l fuel,
  stable Q -> Q l -> (List.length l <= fuel)%nat ->
  E \/ (price o <> None /\ forall l', Q l' -> Forall has_price l') ->
  match while_matching (match_limit_body now) fuel (mkState o l [] O) with
  | Ok s' =>
      run_inv o Q s' /\
      (quantity (st_order s') <= 0 \/ st_opposite s' = [] \/ price_stop s')
  | TypeError => E
  | OutOfFuel => False
  end.
Proof.
  intros o Q E l fuel HQ Hl Hfuel HE.
  apply (while_matching_rule (match_limit_body now) (run_inv o Q) price_stop E);
    auto using run_inv_start.
  intros s best rest HI Hq Eo.
  destruct (match_limit_body_outcome s best rest) as [Hfuel' Herr].
  destruct (match_limit_body now s best rest) as [[s1|s1]| |] eqn:Eb.
  - destruct (match_limit_body_fills now _ _ _ _ Eb) as (f & tk & mk & F).
    split; [eapply run_inv_fill; eauto|].
    destruct (fill_step_progress _ _ _ _ _ _ _ F); [left; lia | right; assumption].
  - destruct (match_limit_body_break now _ _ _ _ Eb) as [-> Hstop].
    split; [assumption|]. exists best, rest. auto.
  - destruct HE as [HE|[Hp Hall]]; [assumption|]. exfalso.
    apply Herr; [| |reflexivity].
    + pose proof (Hall _ (run_opposite _ _ _ HI)) as Hps.
      rewrite Eo in Hps. inversion Hps; assumption.
    + rewrite (run_order _ _ _ HI). simpl. assumption.
  - congruence.
Qed.

End Runs.

(** ** The book seen from the incoming order *)

Lemma book_as_sides : forall b o,
  b = book_of_sides (side o =? "buy")%string (book_symbol b)
        (own_side b o) (opposite_of b o).
Proof.
  intros [sym bs asx] o. unfold book_of_sides, own_side, opposite_of.
  destruct (side o =? "buy")%string; reflexivity.
Qed.

Lemma book_inv_sides : forall buy sym own opp,
  book_inv (book_of_sides buy sym own opp) <-> sides_inv buy own opp.
Proof.
  intros buy sym own opp. unfold book_of_sides.
  destruct buy; split; intros [H1 H2 H3 H4 H5]; constructor; simpl in *;
    try assumption;
    unfold not_crossed, heads_apart, apart in *; simpl in *; auto.
Qed.

Lemma own_side_of_sides : forall o sym own opp,
  own_side (book_of_sides (side o =? "buy")%string sym own opp) o = own.
Proof.
  intros. unfold own_side, book_of_sides.
  destruct (side o =? "buy")%string; reflexivity.
Qed.

Lemma opposite_of_sides : forall o sym own opp,
  opposite_of (book_of_sides (side o =? "buy")%string sym own opp) o = opp.
Proof.
  intros. unfold opposite_of, book_of_sides.
  destruct (side o =? "buy")%string; reflexivity.
Qed.

Lemma book_symbol_of_sides : forall buy sym own opp,
  book_symbol (book_of_sides buy sym own opp) = sym.
Proof. intros [|] sym own opp; reflexivity. Qed.

Lemma own_side_same_side : forall b o o',
  side o' = side o -> own_side b o' = own_side b o.
Proof. intros b o o' E. unfold own_side. rewrite E. reflexivity. Qed.

Lemma opposite_of_same_side : forall b o o',
  side o' = side o -> opposite_of b o' = opposite_of b o.
Proof. intros b o o' E. unfold opposite_of. rewrite E. reflexivity. Qed.

Lemma store_opposite_sides : forall b o l,
  store_opposite b o l =
  book_of_sides (side o =? "buy")%string (book_symbol b) (own_side b o) l.
Proof.
  intros. unfold store_opposite, book_of_sides, own_side.
  destruct (side o =? "buy")%string; reflexivity.
Qed.

Lemma insert_resting_sides : forall b o,
  _insert_resting b o =
  idx <- insertion_index o (own_side b o) O ;;
  Ok (book_of_sides (side o =? "buy")%string (book_symbol b)
        (list_insert idx o (own_side b o)) (opposite_of b o)).
Proof.
  intros. unfold _insert_resting, book_of_sides, own_side, opposite_of.
  destruct (side o =? "buy")%string; reflexivity.
Qed.

(** With the opposite side sorted, an order that does not cross the best
    opposite order crosses none. *)
Lemma heads_apart_all : forall buy own opp,
  side_sorted (negb buy) opp -> heads_apart buy own opp ->
  Forall (fun x => forall h, hd_error own = Some h -> apart buy h x) opp.
Proof.
  intros buy own opp Hs Ha. destruct opp as [|x0 opp]; [constructor|].
  apply side_sorted_inv in Hs. destruct Hs as (Hx0 & Hf & _).
  constructor; [intros h Hh; apply Ha; auto|].
  rewrite Forall_forall in Hf |- *. intros x Hx h Hh.
  specialize (Hf x Hx). specialize (Ha h x0 Hh eq_refl).
  unfold apart, in_priority, goes_before in *.
  destruct buy; simpl in *;
    destruct (price h), (price x0), (price x); simpl in *; try contradiction; lia.
Qed.

Lemma stable_kept : forall buy own, stable (kept buy own).
Proof.
  intros. unfold kept.
  apply stable_and; [apply stable_and|];
    auto using stable_sorted, stable_positive.
  apply stable_Forall. intros x q H. exact H.
Qed.

Lemma kept_start : forall buy own opp,
  sides_inv buy own opp -> kept buy own opp.
Proof.
  intros buy own opp [H1 H2 H3 H4 H5]. repeat split; try assumption.
  - apply H2.
  - apply H2.
  - apply heads_apart_all; assumption.
Qed.

Lemma kept_sides : forall buy own opp opp',
  sides_inv buy own opp -> kept buy own opp' -> sides_inv buy own opp'.
Proof.
  intros buy own opp opp' [H1 H2 H3 H4 H5] [[K1 K2] K3].
  constructor; try assumption.
  intros h x Hh Hx. destruct opp' as [|y opp']; [discriminate|].
  injection Hx as ->. inversion K3; subst. auto.
Qed.

Lemma kept_has_price : forall buy own l, kept buy own l -> Forall has_price l.
Proof. intros buy own l [[[H _] _] _]. exact H. Qed.

Lemma price_stop_apart : forall s best rest,
  price_stop s -> st_opposite s = best :: rest ->
  apart (side (st_order s) =? "buy")%string (st_order s) best.
Proof.
  intros s best rest (best' & rest' & Eo & H) Eo'.
  rewrite Eo in Eo'. injection Eo' as -> ->.
  unfold apart. destruct H as [[Es H]|[Es H]]; rewrite Es; simpl;
    destruct (price best), (price (st_order s)); simpl in *; try discriminate;
    injection H as H; lia.
Qed.

(** Resting insertion of an order that crosses nothing keeps the
    invariants of the book. *)
Lemma insert_sides : forall o p own opp,
  price o = Some p -> 0 < quantity o ->
  sides_inv (side o =? "buy")%string own opp ->
  (forall best, hd_error opp = Some best ->
     apart (side o =? "buy")%string o best) ->
  exists l1 l2,
    splits_at (side o =? "buy")%string p own l1 l2 /\
    insertion_index o own O = Ok (List.length l1) /\
    sides_inv (side o =? "buy")%string (list_insert (List.length l1) o own) opp.
Proof.
  intros o p own opp Ep Hq [H1 H2 H3 H4 H5] Hbest.
  destruct (insertion_index_sorted o p Ep own O H1) as (l1 & l2 & Hsp & Ei).
  exists l1, l2. split; [assumption|]. split; [assumption|].
  pose proof Hsp as (El & _ & _). subst own. rewrite list_insert_app.
  constructor; try assumption.
  - eapply splits_at_sorted; eauto.
  - unfold all_positive in *. apply Forall_app in H3. destruct H3 as [P1 P2].
    apply Forall_app. split; [assumption|]. constructor; assumption.
  - intros h x Hh Hx. destruct l1 as [|h1 l1]; simpl in Hh; injection Hh as <-.
    + apply Hbest. assumption.
    + apply H5; [reflexivity | assumption].
Qed.

Section Dispatch.

Variable now : nat -> Z.

Lemma add_order_market : forall fuel b o,
  type o = "market" ->
  add_order now fuel b o =
  s <- while_matching (execute_market_body now) fuel (start b o) ;;
  Ok (finish b s).
Proof.
  intros fuel b o Ht. unfold add_order, _execute_market. rewrite Ht. simpl.
  destruct (while_matching (execute_market_body now) fuel (start b o));
    reflexivity.
Qed.

(** Both branches for an order that is not a market order: limit matching,
    then resting insertion of a positive remainder. *)
Lemma add_order_resting : forall fuel b o,
  type o <> "market" ->
  add_order now fuel b o =
  s <- while_matching (match_limit_body now) fuel (start b o) ;;
  if 0 <? quantity (st_order s) then
    b' <- _insert_resting (store_opposite b (st_order s) (st_opposite s))
            (st_order s) ;;
    Ok (st_reports s, b', st_order s)
  else Ok (finish b s).
Proof.
  intros fuel b o Ht. unfold add_order, _match_limit.
  apply String.eqb_neq in Ht. rewrite Ht.
  destruct (type o =? "limit")%string;
    (destruct (while_matching (match_limit_body now) fuel (start b o)) as [s| |];
     simpl; [|reflexivity|reflexivity];
     destruct (0 <? quantity (st_order s)); [|reflexivity];
     destruct (_insert_resting _ _); reflexivity).
Qed.

(** A result does not depend on the fuel that was enough to reach it. *)
Lemma add_order_fuel_mono : forall fuel fuel' b o res,
  add_order now fuel b o = Ok res -> (fuel <= fuel')%nat ->
  add_order now fuel' b o = Ok res.
Proof.
  intros fuel fuel' b o res H Hle.
  destruct (String.eqb_spec (type o) "market") as [Ht|Ht].
  - rewrite add_order_market in * by assumption.
    destruct (while_matching (execute_market_body now) fuel (start b o))
      as [s| |] eqn:E; try discriminate.
    rewrite (while_matching_fuel_mono _ _ _ _ _ E Hle). exact H.
  - rewrite add_order_resting in * by assumption.
    destruct (while_matching (match_limit_body now) fuel (start b o))
      as [s| |] eqn:E; try discriminate.
    rewrite (while_matching_fuel_mono _ _ _ _ _ E Hle). exact H.
Qed.

Lemma store_opposite_run : forall b o Q s l,
  run_inv o Q s ->
  store_opposite b (st_order s) l =
  book_of_sides (side o =? "buy")%string (book_symbol b) (own_side b o) l.
Proof.
  intros b o Q s l HI. rewrite store_opposite_sides.
  unfold own_side. rewrite (run_order _ _ _ HI). reflexivity.
Qed.

(** Every call that meets the preconditions returns and leaves a book that
    satisfies the invariants. *)
Lemma add_order_preserves_inv : forall fuel b o,
  book_inv b ->
  (type o <> "market" -> price o <> None) ->
  (List.length (opposite_of b o) <= fuel)%nat ->
  exists reports b' o',
    add_order now fuel b o = Ok (reports, b', o') /\ book_inv b'.
Proof.
  intros fuel b o Hinv Hprice Hfuel.
  set (buy := (side o =? "buy")%string).
  assert (Hsides : sides_inv buy (own_side b o) (opposite_of b o)).
  { apply (book_inv_sides buy (book_symbol b)). unfold buy.
    rewrite <- book_as_sides. assumption. }
  pose proof (kept_start _ _ _ Hsides) as Hk.
  destruct (String.eqb_spec (type o) "market") as [Ht|Ht].
  - rewrite add_order_market by assumption. unfold start.
    destruct (market_loop_spec now o _ _ fuel
                (stable_kept buy (own_side b o)) Hk Hfuel)
      as (s' & -> & HI & _).
    simpl. unfold finish. do 3 eexists. split; [reflexivity|].
    rewrite (store_opposite_run _ _ _ _ _ HI).
    apply book_inv_sides. eapply kept_sides; eauto. apply HI.
  - rewrite add_order_resting by assumption. unfold start.
    pose proof (limit_loop_spec now o _ False _ fuel
                  (stable_kept buy (own_side b o)) Hk Hfuel) as R.
    destruct (while_matching (match_limit_body now) fuel
                (mkState o (opposite_of b o) [] O)) as [s'| |];
      [| exfalso; apply R; right; split; [auto | apply kept_has_price]
       | exfalso; apply R; right; split; [auto | apply kept_has_price] ].
    destruct R as [HI Hex];
      [right; split; [auto | apply kept_has_price]|].
    simpl.
    assert (Hs' : sides_inv buy (own_side b o) (st_opposite s')).
    { eapply kept_sides; eauto. apply HI. }
    destruct (Z.ltb_spec 0 (quantity (st_order s'))) as [Hq|Hq].
    + rewrite insert_resting_sides.
      rewrite (store_opposite_run _ _ _ _ _ HI).
      assert (Eside : side (st_order s') = side o).
      { rewrite (run_order _ _ _ HI). reflexivity. }
      rewrite Eside, (own_side_same_side _ _ _ Eside),
        (opposite_of_same_side _ _ _ Eside).
      rewrite own_side_of_sides, opposite_of_sides, book_symbol_of_sides.
      fold buy.
      destruct (price o) as [p|] eqn:Ep; [|exfalso; apply Hprice; auto].
      destruct (insert_sides (st_order s') p (own_side b o) (st_opposite s'))
        as (l1 & l2 & _ & Ei & Hins).
      * rewrite (run_order _ _ _ HI). simpl. assumption.
      * assumption.
      * rewrite Eside. assumption.
      * rewrite Eside. intros best Hb.
        destruct (st_opposite s') as [|best' rest] eqn:Eo; [discriminate|].
        injection Hb as ->.
        destruct Hex as [Hz|[Hnil|Hstop]]; [lia | discriminate |].
        unfold buy. rewrite <- Eside.
        eapply price_stop_apart; eauto.
      * rewrite Ei. simpl. do 3 eexists. split; [reflexivity|].
        apply (book_inv_sides buy). rewrite Eside in Hins. exact Hins.
    + unfold finish. do 3 eexists. split; [reflexivity|].
      rewrite (store_opposite_run _ _ _ _ _ HI).
      apply book_inv_sides. assumption.
Qed.

End Dispatch.

(** ** Fill events *)

Section Events.

Variable now : nat -> Z.

Lemma status_of_filled : forall c, status_of c = "filled" <-> c = true.
Proof. intros [|]; simpl; split; intros H; try reflexivity; discriminate. Qed.

Lemma status_of_partial : forall c, status_of c = "partial_fill" <-> c = false.
Proof. intros [|]; simpl; split; intros H; try reflexivity; discriminate. Qed.

(** The state a filling iteration of the limit loop leaves. *)
Lemma match_limit_body_continue : forall s best rest s',
  match_limit_body now s best rest = Ok (Continue s') ->
  let order := st_order s in
  let f := Z.min (quantity order) (quantity best) in
  s' = mkState (with_quantity order (quantity order - f))
         (settle_head (with_quantity best (quantity best - f)) rest)
         (st_reports s ++
          [mkReport (id order) (symbol order) (side order) f (price best)
             (now (st_clock s)) (status_of (quantity order - f =? 0));
           mkReport (id best) (symbol best) (side best) f (price best)
             (now (st_clock s)) (status_of (quantity best - f =? 0))])
         (S (st_clock s)).
Proof.
  intros s best rest s' H. unfold match_limit_body in H.
  destruct (side (st_order s) =? "buy")%string;
    [destruct (py_gt (price best) (price (st_order s))) as [[|]| |]|];
    simpl in H; try discriminate;
    (destruct (side (st_order s) =? "sell")%string;
     [destruct (py_lt (price best) (price (st_order s))) as [[|]| |]|];
     simpl in H; try discriminate);
    injection H as <-; reflexivity.
Qed.

(** The final loop variables of a run are reached by its iterations. *)
Lemma while_matching_iterates : forall body,
  (forall s best rest s', body s best rest = Ok (Break s') -> s' = s) ->
  forall fuel s0 s sf,
    iterates body s0 s -> while_matching body fuel s = Ok sf ->
    iterates body s0 sf.
Proof.
  intros body Hbreak.
  induction fuel as [|fuel IH]; intros s0 s sf Hit H; simpl in H;
    destruct (Z.ltb_spec 0 (quantity (st_order s))) as [Hq|Hq];
    try (injection H as <-; assumption);
    destruct (st_opposite s) as [|best rest] eqn:Eo;
    try (injection H as <-; assumption); try discriminate.
  destruct (body s best rest) as [[s1|s1]| |] eqn:Eb; try discriminate.
  - eapply IH; [|exact H]. eapply iterates_next; eauto.
  - injection H as <-. rewrite (Hbreak _ _ _ _ Eb). assumption.
Qed.

(** The reports a call returns are the reports of its fill events. *)
Lemma add_order_reports_iterates : forall fuel b o reports b' o',
  add_order now fuel b o = Ok (reports, b', o') ->
  exists sf,
    iterates (if (type o =? "market")%string then execute_market_body now
              else match_limit_body now) (start b o) sf /\
    reports = st_reports sf /\ o' = st_order sf.
Proof.
  intros fuel b o reports b' o' H.
  destruct (String.eqb_spec (type o) "market") as [Ht|Ht].
  - rewrite add_order_market in H by assumption.
    destruct (while_matching (execute_market_body now) fuel (start b o))
      as [s| |] eqn:E; try discriminate.
    injection H as <- _ <-. exists s. split; [|split; reflexivity].
    eapply while_matching_iterates; [| apply iterates_start | exact E].
    intros s0 best rest s' Eb.
    destruct (execute_market_body_inv now _ _ _ _ Eb) as (? & ? & ? & ? & ? & _).
    discriminate.
  - rewrite add_order_resting in H by assumption.
    destruct (while_matching (match_limit_body now) fuel (start b o))
      as [s| |] eqn:E; try discriminate.
    assert (Hit : iterates (match_limit_body now) (start b o) s).
    { eapply while_matching_iterates; [| apply iterates_start | exact E].
      intros s0 best rest s' Eb.
      apply (match_limit_body_break now _ _ _ _ Eb). }
    simpl in H. exists s.
    destruct (0 <? quantity (st_order s)).
    + destruct (_insert_resting _ _); try discriminate.
      injection H as <- _ <-. auto.
    + injection H as <- _ <-. auto.
Qed.

End Events.

(** * The properties of the engine *)

(** ** Properties of the fills *)

(** The first iteration of a run is a fill event when it fills. *)
Ltac first_event :=
  split; [apply iterates_start | split; [reflexivity | split; reflexivity]].

(** C2: in every fill event of a market order, the taker's report says
    "filled" exactly when the incoming order has nothing left after the fill,
    or the fill used up the resting order while the opposite sequence held
    exactly one order before its removal; otherwise it says "partial_fill". *)
Theorem market_taker_status : forall now b o s best rest s',
  fill_event (execute_market_body now) (start b o) s best rest s' ->
  exists tk mk,
    st_reports s' = (st_reports s ++ [tk; mk])%list /\
    let maker_left :=
      quantity best - Z.min (quantity (st_order s)) (quantity best) in
    let last_resting :=
      maker_left = 0 /\ List.length (st_opposite s) = 1%nat in
    (status tk = "filled" <-> quantity (st_order s') = 0 \/ last_resting) /\
    (~ (quantity (st_order s') = 0 \/ last_resting) ->
     status tk = "partial_fill").
Proof.
  intros now b o s best rest s' (_ & _ & Eo & Eb).
  unfold execute_market_body in Eb. injection Eb as <-.
  do 2 eexists. split; [reflexivity|]. simpl. rewrite Eo.
  rewrite status_of_filled, status_of_partial.
  rewrite <- Bool.not_true_iff_false.
  rewrite Bool.orb_true_iff, Bool.andb_true_iff, Z.eqb_eq, Z.eqb_eq, Nat.eqb_eq.
  simpl. split; intuition lia.
Qed.

Lemma market_taker_status_witness :
  fill_event (execute_market_body ex_clock) (start ex_book ex_market_buy)
    (start ex_book ex_market_buy) ex_ask [] ex_market_after /\
  exists tk mk,
    st_reports ex_market_after =
      (st_reports (start ex_book ex_market_buy) ++ [tk; mk])%list /\
    (status tk = "filled" <->
       quantity (st_order ex_market_after) = 0 \/
       (quantity ex_ask - Z.min (quantity ex_market_buy) (quantity ex_ask) = 0 /\
        List.length (st_opposite (start ex_book ex_market_buy)) = 1%nat)) /\
    (~ (quantity (st_order ex_market_after) = 0 \/
        (quantity ex_ask - Z.min (quantity ex_market_buy) (quantity ex_ask) = 0 /\
         List.length (st_opposite (start ex_book ex_market_buy)) = 1%nat)) ->
     status tk = "partial_fill").
Proof.
  assert (H : fill_event (execute_market_body ex_clock)
                (start ex_book ex_market_buy)
                (start ex_book ex_market_buy) ex_ask [] ex_market_after).
  { first_event. }
  split; [exact H|].
  exact (market_taker_status ex_clock ex_book ex_market_buy _ _ _ _ H).
Defined.



(** C5: in every fill event of the limit loop (limit orders and orders
    treated as such), the taker's report says "filled" exactly when the
    incoming order has nothing left after the fill and "partial_fill"
    otherwise, with no last-resting-order case; in the limit loop and in
    the market loop alike, the maker's report says "filled" exactly when the
    resting order has nothing left after the fill and "partial_fill"
    otherwise. *)
Theorem limit_taker_and_maker_status : forall now b o s best rest s',
  let maker_left :=
    quantity best - Z.min (quantity (st_order s)) (quantity best) in
  (fill_event (match_limit_body now) (start b o) s best rest s' ->
   exists tk mk,
     st_reports s' = (st_reports s ++ [tk; mk])%list /\
     (status tk = "filled" <-> quantity (st_order s') = 0) /\
     (quantity (st_order s') <> 0 -> status tk = "partial_fill") /\
     (status mk = "filled" <-> maker_left = 0) /\
     (maker_left <> 0 -> status mk = "partial_fill")) /\
  (fill_event (execute_market_body now) (start b o) s best rest s' ->
   exists tk mk,
     st_reports s' = (st_reports s ++ [tk; mk])%list /\
     (status mk = "filled" <-> maker_left = 0) /\
     (maker_left <> 0 -> status mk = "partial_fill")).
Proof.
  intros now b o s best rest s' maker_left. subst maker_left.
  split; intros (_ & _ & Eo & Eb).
  - apply match_limit_body_continue in Eb. simpl in Eb. subst s'.
    do 2 eexists. split; [reflexivity|]. simpl.
    rewrite !status_of_filled, !status_of_partial, !Z.eqb_eq, !Z.eqb_neq.
    repeat split; auto.
  - unfold execute_market_body in Eb. injection Eb as <-.
    do 2 eexists. split; [reflexivity|]. simpl.
    rewrite !status_of_filled, !status_of_partial, !Z.eqb_eq, !Z.eqb_neq.
    repeat split; auto.
Qed.

Lemma limit_taker_and_maker_status_witness :
  fill_event (match_limit_body ex_clock) (start ex_book ex_limit_buy)
    (start ex_book ex_limit_buy) ex_ask [] ex_limit_after /\
  exists tk mk,
    st_reports ex_limit_after =
      (st_reports (start ex_book ex_limit_buy) ++ [tk; mk])%list /\
    (status tk = "filled" <-> quantity (st_order ex_limit_after) = 0) /\
    (quantity (st_order ex_limit_after) <> 0 -> status tk = "partial_fill") /\
    (status mk = "filled" <->
     quantity ex_ask - Z.min (quantity ex_limit_buy) (quantity ex_ask) = 0) /\
    (quantity ex_ask - Z.min (quantity ex_limit_buy) (quantity ex_ask) <> 0 ->
     status mk = "partial_fill").
Proof.
  assert (H : fill_event (match_limit_body ex_clock)
                (start ex_book ex_limit_buy)
                (start ex_book ex_limit_buy) ex_ask [] ex_limit_after).
  { first_event. }
  split; [exact H|].
  exact (proj1 (limit_taker_and_maker_status ex_clock ex_book ex_limit_buy
                  _ _ _ _) H).
Defined.

(** ** What a call leaves in the book *)

Lemma insertion_index_total : forall o l idx,
  insertion_index o l idx <> OutOfFuel.
Proof.
  intros o l. induction l as [|x l IH]; intros idx; simpl; [discriminate|].
  destruct (side o =? "buy")%string;
    [destruct (py_gt (price x) (price o)) as [[|]| |] eqn:E
    |destruct (py_lt (price x) (price o)) as [[|]| |] eqn:E];
    simpl; try discriminate; try apply IH;
    unfold py_gt, py_lt in E; destruct (price x), (price o); discriminate.
Qed.

Lemma all_positive_insert : forall idx x l,
  0 < quantity x -> all_positive l -> all_positive (list_insert idx x l).
Proof.
  intros idx x l Hx Hl. unfold all_positive, list_insert in *.
  rewrite <- (firstn_skipn idx l) in Hl. apply Forall_app in Hl.
  destruct Hl as [H1 H2]. apply Forall_app. split; [assumption|].
  constructor; assumption.
Qed.

(** C10: a limit or stop order (any order that is not a market order)
    submitted with a remaining quantity that is not positive returns the
    empty list of reports and leaves the book, and the order, as they were:
    the loop is not entered and the resting insertion is skipped. *)
Theorem nonpositive_order_dropped : forall now fuel b o,
  type o <> "market" -> quantity o <= 0 ->
  add_order now fuel b o = Ok ([], b, o).
Proof.
  intros now fuel b o Ht Hq. rewrite add_order_resting by assumption.
  unfold start. rewrite while_matching_exit by assumption. simpl.
  destruct (Z.ltb_spec 0 (quantity o)); [lia|].
  unfold finish. simpl. rewrite store_opposite_sides, <- book_as_sides.
  reflexivity.
Qed.

Lemma nonpositive_order_dropped_witness :
  type ex_void_sell <> "market" /\ quantity ex_void_sell <= 0 /\
  add_order ex_clock 0 ex_book ex_void_sell = Ok ([], ex_book, ex_void_sell).
Proof.
  assert (Ht : type ex_void_sell <> "market") by discriminate.
  assert (Hq : quantity ex_void_sell <= 0) by (simpl; lia).
  split; [exact Ht|]. split; [exact Hq|].
  exact (nonpositive_order_dropped ex_clock 0 ex_book ex_void_sell Ht Hq).
Defined.

(** C9: a call of [add_order] terminates: with one unit of fuel for every
    order of the opposite sequence the call never runs out of fuel, because
    every filling iteration of either loop uses up the incoming order, which
    ends the loop, or removes the head of the opposite sequence, which
    shortens it by one; the one iteration that does not fill is the price
    test of the limit loop, which leaves the loop at once.  (The call ends
    with its result or, when a price is missing, with the [TypeError] of the
    comparison.) *)
Theorem add_order_terminates : forall now fuel b o,
  all_positive (bids b) -> all_positive (asks b) ->
  (List.length (opposite_of b o) <= fuel)%nat ->
  add_order now fuel b o <> OutOfFuel /\
  (forall s best rest s',
     0 < quantity (st_order s) -> st_opposite s = best :: rest ->
     match_limit_body now s best rest = Ok (Continue s') \/
     execute_market_body now s best rest = Ok (Continue s') ->
     quantity (st_order s') = 0 \/
     (st_opposite s' = rest /\
      S (List.length (st_opposite s')) = List.length (st_opposite s))) /\
  (forall s best rest s' fuel',
     0 < quantity (st_order s) -> st_opposite s = best :: rest ->
     match_limit_body now s best rest = Ok (Break s') ->
     while_matching (match_limit_body now) (S fuel') s = Ok s).
Proof.
  intros now fuel b o _ _ Hfuel. split; [|split].
  - destruct (String.eqb_spec (type o) "market") as [Ht|Ht].
    + rewrite add_order_market by assumption. unfold start.
      destruct (market_loop_spec now o (fun _ => True) _ fuel stable_true I Hfuel)
        as (s' & -> & _). discriminate.
    + rewrite add_order_resting by assumption. unfold start.
      pose proof (limit_loop_spec now o (fun _ => True) True _ fuel
                    stable_true I Hfuel (or_introl I)) as R.
      destruct (while_matching (match_limit_body now) fuel
                  (mkState o (opposite_of b o) [] O)) as [s'| |];
        [|discriminate|contradiction].
      simpl. destruct (0 <? quantity (st_order s')); [|discriminate].
      rewrite insert_resting_sides.
      pose proof (insertion_index_total (st_order s')
                    (own_side (store_opposite b (st_order s') (st_opposite s'))
                       (st_order s')) O) as Hi.
      destruct (insertion_index _ _ _); simpl; congruence.
  - intros s best rest s' Hq Eo [Eb|Eb].
    + destruct (match_limit_body_fills now _ _ _ _ Eb) as (f & tk & mk & F).
      destruct (fill_step_progress _ _ _ _ _ _ _ F) as [H|H]; [left; exact H|].
      right. rewrite H, Eo. split; reflexivity.
    + destruct (execute_market_body_inv now _ _ _ _ Eb)
        as (s1 & f & tk & mk & E & F).
      injection E as <-.
      destruct (fill_step_progress _ _ _ _ _ _ _ F) as [H|H]; [left; exact H|].
      right. rewrite H, Eo. split; reflexivity.
  - intros s best rest s' fuel' Hq Eo Eb. simpl.
    destruct (Z.ltb_spec 0 (quantity (st_order s))); [|lia].
    rewrite Eo, Eb.
    destruct (match_limit_body_break now _ _ _ _ Eb) as [-> _]. reflexivity.
Qed.

Lemma add_order_terminates_witness :
  all_positive (bids ex_book) /\ all_positive (asks ex_book) /\
  (List.length (opposite_of ex_book ex_limit_buy) <= 1)%nat /\
  add_order ex_clock 1 ex_book ex_limit_buy <> OutOfFuel.
Proof.
  assert (Hb : all_positive (bids ex_book)).
  { constructor; [reflexivity | constructor]. }
  assert (Ha : all_positive (asks ex_book)).
  { constructor; [reflexivity | constructor]. }
  assert (Hl : (List.length (opposite_of ex_book ex_limit_buy) <= 1)%nat).
  { simpl. lia. }
  split; [exact Hb|]. split; [exact Ha|]. split; [exact Hl|].
  exact (proj1 (add_order_terminates ex_clock 1 ex_book ex_limit_buy Hb Ha Hl)).
Defined.

(** C8: from a book in which every resting order has a positive remaining
    quantity, a call of [add_order] for an order with a positive quantity
    leaves such a book; and a filling iteration of either loop that brings
    the resting order down to zero removes it from the head of its sequence
    in that same iteration, while one that leaves it a remainder keeps it
    at the head. *)
Theorem add_order_keeps_positive : forall now fuel b o,
  all_positive (bids b) -> all_positive (asks b) -> 0 < quantity o ->
  (List.length (opposite_of b o) <= fuel)%nat ->
  match add_order now fuel b o with
  | Ok (_, b', _) => all_positive (bids b') /\ all_positive (asks b')
  | TypeError => True
  | OutOfFuel => False
  end /\
  (forall s best rest s',
     match_limit_body now s best rest = Ok (Continue s') \/
     execute_market_body now s best rest = Ok (Continue s') ->
     let left :=
       quantity best - Z.min (quantity (st_order s)) (quantity best) in
     (left = 0 -> st_opposite s' = rest) /\
     (left <> 0 -> st_opposite s' = with_quantity best left :: rest)).
Proof.
  intros now fuel b o Hb Ha _ Hfuel.
  set (buy := (side o =? "buy")%string).
  assert (Hown : all_positive (own_side b o)).
  { unfold own_side. destruct (side o =? "buy")%string; assumption. }
  assert (Hopp : all_positive (opposite_of b o)).
  { unfold opposite_of. destruct (side o =? "buy")%string; assumption. }
  assert (Hbook : forall own opp, all_positive own -> all_positive opp ->
            let b' := book_of_sides buy (book_symbol b) own opp in
            all_positive (bids b') /\ all_positive (asks b')).
  { intros own opp H1 H2. unfold book_of_sides. destruct buy; simpl; auto. }
  split.
  - destruct (String.eqb_spec (type o) "market") as [Ht|Ht].
    + rewrite add_order_market by assumption. unfold start.
      destruct (market_loop_spec now o all_positive _ fuel
                  stable_positive Hopp Hfuel) as (s' & -> & HI & _).
      simpl. rewrite (store_opposite_run _ _ _ _ _ HI).
      apply Hbook; [assumption | apply HI].
    + rewrite add_order_resting by assumption. unfold start.
      pose proof (limit_loop_spec now o all_positive True _ fuel
                    stable_positive Hopp Hfuel (or_introl I)) as R.
      destruct (while_matching (match_limit_body now) fuel
                  (mkState o (opposite_of b o) [] O)) as [s'| |];
        [|exact I|contradiction].
      destruct R as [HI _]. simpl.
      destruct (Z.ltb_spec 0 (quantity (st_order s'))) as [Hq|Hq].
      * rewrite insert_resting_sides.
        rewrite (store_opposite_run _ _ _ _ _ HI).
        assert (Eside : side (st_order s') = side o).
        { rewrite (run_order _ _ _ HI). reflexivity. }
        rewrite Eside, (own_side_same_side _ _ _ Eside),
          (opposite_of_same_side _ _ _ Eside).
        rewrite own_side_of_sides, opposite_of_sides, book_symbol_of_sides.
        fold buy.
        pose proof (insertion_index_total (st_order s') (own_side b o) O) as Hi.
        destruct (insertion_index _ _ _) as [idx| |]; simpl;
          [|exact I|congruence].
        apply Hbook; [|apply HI].
        apply all_positive_insert; assumption.
      * unfold finish. rewrite (store_opposite_run _ _ _ _ _ HI).
        apply Hbook; [assumption | apply HI].
  - intros s best rest s' Hbody left.
    assert (F : exists f tk mk, fill_step s best rest s' f tk mk).
    { destruct Hbody as [Eb|Eb].
      - eapply match_limit_body_fills; eauto.
      - destruct (execute_market_body_inv now _ _ _ _ Eb)
          as (s1 & f & tk & mk & E & F).
        injection E as <-. eauto. }
    destruct F as (f & tk & mk & F).
    rewrite (fill_opposite _ _ _ _ _ _ _ F), (fill_qty_min _ _ _ _ _ _ _ F).
    unfold settle_head. simpl. fold left.
    destruct (Z.eqb_spec left 0); split; intros; congruence.
Qed.

Lemma add_order_keeps_positive_witness :
  all_positive (bids ex_book) /\ all_positive (asks ex_book) /\
  0 < quantity ex_stop_sell /\
  (List.length (opposite_of ex_book ex_stop_sell) <= 1)%nat /\
  match add_order ex_clock 1 ex_book ex_stop_sell with
  | Ok (_, b', _) => all_positive (bids b') /\ all_positive (asks b')
  | TypeError => True
  | OutOfFuel => False
  end.
Proof.
  assert (Hb : all_positive (bids ex_book)).
  { constructor; [reflexivity | constructor]. }
  assert (Ha : all_positive (asks ex_book)).
  { constructor; [reflexivity | constructor]. }
  assert (Hq : 0 < quantity ex_stop_sell) by reflexivity.
  assert (Hl : (List.length (opposite_of ex_book ex_stop_sell) <= 1)%nat).
  { simpl. lia. }
  split; [exact Hb|]. split; [exact Ha|]. split; [exact Hq|]. split; [exact Hl|].
  exact (proj1 (add_order_keeps_positive ex_clock 1 ex_book ex_stop_sell
                  Hb Ha Hq Hl)).
Defined.

(** ** Orders that are not market orders *)

Lemma match_limit_body_retype : forall now t s best rest,
  match_limit_body now (retype_state t s) best rest =
  match match_limit_body now s best rest with
  | Ok (Continue s') => Ok (Continue (retype_state t s'))
  | Ok (Break s') => Ok (Break (retype_state t s'))
  | TypeError => TypeError
  | OutOfFuel => OutOfFuel
  end.
Proof.
  intros now t s best rest. unfold match_limit_body. simpl.
  destruct (side (st_order s) =? "buy")%string;
    [destruct (py_gt (price best) (price (st_order s))) as [[|]| |]|];
    simpl; try reflexivity;
    (destruct (side (st_order s) =? "sell")%string;
     [destruct (py_lt (price best) (price (st_order s))) as [[|]| |]|];
     simpl; reflexivity).
Qed.

Lemma while_matching_retype : forall now t fuel s,
  while_matching (match_limit_body now) fuel (retype_state t s) =
  match while_matching (match_limit_body now) fuel s with
  | Ok s' => Ok (retype_state t s')
  | TypeError => TypeError
  | OutOfFuel => OutOfFuel
  end.
Proof.
  intros now t. induction fuel as [|fuel IH]; intros s;
    cbn [while_matching];
    change (quantity (st_order (retype_state t s)))
      with (quantity (st_order s));
    change (st_opposite (retype_state t s)) with (st_opposite s);
    destruct (0 <? quantity (st_order s)); try reflexivity;
    destruct (st_opposite s) as [|best rest]; try reflexivity.
  rewrite match_limit_body_retype.
  destruct (match_limit_body now s best rest) as [[s1|s1]| |];
    try reflexivity.
  apply IH.
Qed.

Lemma skip_same_price_retype : forall o t l idx,
  skip_same_price (with_type o t) l idx = skip_same_price o l idx.
Proof.
  intros o t. induction l as [|x l IH]; intros idx; simpl; [reflexivity|].
  rewrite IH. reflexivity.
Qed.

Lemma insertion_index_retype : forall o t l idx,
  insertion_index (with_type o t) l idx = insertion_index o l idx.
Proof.
  intros o t. induction l as [|x l IH]; intros idx; [reflexivity|].
  cbn [insertion_index].
  change (side (with_type o t)) with (side o).
  change (price (with_type o t)) with (price o).
  rewrite IH, (skip_same_price_retype o t (x :: l)). reflexivity.
Qed.

Lemma same_up_to_refl : forall o1 o2 l, Forall2 (same_up_to o1 o2) l l.
Proof.
  intros o1 o2. induction l; constructor; [left; reflexivity | assumption].
Qed.

Lemma same_up_to_insert : forall o1 o2 idx l,
  Forall2 (same_up_to o1 o2) (list_insert idx o1 l) (list_insert idx o2 l).
Proof.
  intros o1 o2 idx l. unfold list_insert. apply Forall2_app.
  - apply same_up_to_refl.
  - constructor; [right; split; reflexivity | apply same_up_to_refl].
Qed.

(** C6: an order whose type is not "market" (a stop order, or an order of
    an unrecognised type) takes the path of a limit order: limit matching
    first, then resting insertion of a remainder with a positive quantity.
    Against the same book, the call returns exactly the reports that it
    returns for the same order typed "limit", and leaves the same book:
    position by position the two books hold the same resting order, the
    rested remainder being the submitted order itself in each. *)
Theorem not_market_is_limit : forall now fuel b o,
  type o <> "market" ->
  add_order now fuel b o = limit_then_rest now fuel b o /\
  match add_order now fuel b o, add_order now fuel b (with_type o "limit") with
  | Ok (r1, b1, o1), Ok (r2, b2, o2) =>
      r1 = r2 /\
      o2 = with_type o1 "limit" /\
      book_symbol b1 = book_symbol b2 /\
      Forall2 (same_up_to o1 o2) (bids b1) (bids b2) /\
      Forall2 (same_up_to o1 o2) (asks b1) (asks b2)
  | TypeError, TypeError => True
  | OutOfFuel, OutOfFuel => True
  | _, _ => False
  end.
Proof.
  intros now fuel b o Ht. split.
  - rewrite add_order_resting by assumption.
    unfold limit_then_rest, _match_limit.
    destruct (while_matching (match_limit_body now) fuel (start b o)) as [s| |];
      reflexivity.
  - rewrite (add_order_resting now fuel b o) by assumption.
    rewrite (add_order_resting now fuel b (with_type o "limit")) by discriminate.
    change (start b (with_type o "limit"))
      with (retype_state "limit" (start b o)).
    rewrite while_matching_retype.
    destruct (while_matching (match_limit_body now) fuel (start b o)) as [s| |];
      simpl; auto.
    destruct (0 <? quantity (st_order s)).
    + rewrite !insert_resting_sides.
      change (store_opposite b (with_type (st_order s) "limit") (st_opposite s))
        with (store_opposite b (st_order s) (st_opposite s)).
      set (b1 := store_opposite b (st_order s) (st_opposite s)).
      change (own_side b1 (with_type (st_order s) "limit"))
        with (own_side b1 (st_order s)).
      change (opposite_of b1 (with_type (st_order s) "limit"))
        with (opposite_of b1 (st_order s)).
      change (side (with_type (st_order s) "limit")) with (side (st_order s)).
      rewrite insertion_index_retype.
      destruct (insertion_index (st_order s) _ O) as [idx| |]; simpl; auto.
      split; [reflexivity|]. split; [reflexivity|].
      rewrite !book_symbol_of_sides. split; [reflexivity|].
      unfold book_of_sides.
      destruct (side (st_order s) =? "buy")%string; simpl;
        split; auto using same_up_to_insert, same_up_to_refl.
    + unfold finish. simpl. repeat split; apply same_up_to_refl.
Qed.

Lemma not_market_is_limit_witness :
  type ex_stop_sell <> "market" /\
  add_order ex_clock 1 ex_book ex_stop_sell =
    limit_then_rest ex_clock 1 ex_book ex_stop_sell /\
  match add_order ex_clock 1 ex_book ex_stop_sell,
        add_order ex_clock 1 ex_book (with_type ex_stop_sell "limit") with
  | Ok (r1, b1, o1), Ok (r2, b2, o2) =>
      r1 = r2 /\
      o2 = with_type o1 "limit" /\
      book_symbol b1 = book_symbol b2 /\
      Forall2 (same_up_to o1 o2) (bids b1) (bids b2) /\
      Forall2 (same_up_to o1 o2) (asks b1) (asks b2)
  | TypeError, TypeError => True
  | OutOfFuel, OutOfFuel => True
  | _, _ => False
  end.
Proof.
  assert (Ht : type ex_stop_sell <> "market") by discriminate.
  split; [exact Ht|].
  exact (not_market_is_limit ex_clock 1 ex_book ex_stop_sell Ht).
Defined.

(** ** Resting insertion and the crossing of the book *)

(** C3: resting insertion into a sorted side puts the order behind every
    resting order with a strictly better price and behind every resting
    order at its own price: the orders ahead of it rank before it or with
    it, the orders behind it have a strictly worse price (strictly lower
    for bids, strictly higher for asks), and the side is sorted again, the
    orders that arrived earlier at the same price staying ahead. *)
Theorem insert_resting_priority : forall b o p,
  let buy := (side o =? "buy")%string in
  price o = Some p ->
  side_sorted buy (own_side b o) ->
  exists l1 l2 b',
    _insert_resting b o = Ok b' /\
    own_side b o = (l1 ++ l2)%list /\
    own_side b' o = (l1 ++ o :: l2)%list /\
    opposite_of b' o = opposite_of b o /\
    Forall (fun x => price_rel (goes_before buy) (price x) (Some p)) l1 /\
    Forall (fun x => price_rel (strictly_behind buy) (Some p) (price x)) l2 /\
    side_sorted buy (own_side b' o).
Proof.
  intros b o p buy Ep Hs.
  destruct (insertion_index_sorted o p Ep (own_side b o) O Hs)
    as (l1 & l2 & Hsp & Ei).
  pose proof Hsp as (El & H1 & H2).
  exists l1, l2. rewrite insert_resting_sides, Ei. simpl.
  eexists. split; [reflexivity|].
  rewrite own_side_of_sides, opposite_of_sides.
  split; [exact El|].
  assert (Hs' : side_sorted buy (l1 ++ o :: l2)).
  { eapply splits_at_sorted; eauto. }
  rewrite El, list_insert_app.
  split; [reflexivity|]. split; [reflexivity|].
  split; [exact H1|]. split; [exact H2 | exact Hs'].
Qed.

Lemma insert_resting_priority_witness :
  price ex_ask_later = Some 20 /\
  side_sorted (side ex_ask_later =? "buy")%string (own_side ex_book ex_ask_later) /\
  exists l1 l2 b',
    _insert_resting ex_book ex_ask_later = Ok b' /\
    own_side ex_book ex_ask_later = (l1 ++ l2)%list /\
    own_side b' ex_ask_later = (l1 ++ ex_ask_later :: l2)%list /\
    opposite_of b' ex_ask_later = opposite_of ex_book ex_ask_later /\
    Forall (fun x => price_rel (goes_before false) (price x) (Some 20)) l1 /\
    Forall (fun x => price_rel (strictly_behind false) (Some 20) (price x)) l2 /\
    side_sorted false (own_side b' ex_ask_later).
Proof.
  assert (Ep : price ex_ask_later = Some 20) by reflexivity.
  assert (Hs : side_sorted (side ex_ask_later =? "buy")%string
                 (own_side ex_book ex_ask_later)).
  { split; repeat constructor. discriminate. }
  split; [exact Ep|]. split; [exact Hs|].
  exact (insert_resting_priority ex_book ex_ask_later 20 Ep Hs).
Defined.

Lemma ex_book_inv : book_inv ex_book.
Proof.
  constructor; simpl.
  - split; repeat constructor. discriminate.
  - split; repeat constructor. discriminate.
  - constructor; [reflexivity | constructor].
  - constructor; [reflexivity | constructor].
  - intros bb ba Hb Ha. injection Hb as <-. injection Ha as <-.
    simpl. lia.
Qed.

(** C1: for a book that satisfies the invariants (both sides sorted, every
    resting quantity positive, best bid strictly below best ask when both
    sides are non-empty) and an incoming order with a positive quantity and,
    unless it is a market order, a defined price, [add_order] returns and,
    when both sequences are then non-empty, the price of the first bid is
    strictly below the price of the first ask. *)
Theorem add_order_no_cross : forall now fuel b o,
  book_inv b ->
  0 < quantity o ->
  (type o <> "market" -> price o <> None) ->
  (List.length (opposite_of b o) <= fuel)%nat ->
  exists reports b' o',
    add_order now fuel b o = Ok (reports, b', o') /\
    forall bb ba,
      hd_error (bids b') = Some bb -> hd_error (asks b') = Some ba ->
      price_rel Z.lt (price bb) (price ba).
Proof.
  intros now fuel b o Hinv _ Hprice Hfuel.
  destruct (add_order_preserves_inv now fuel b o Hinv Hprice Hfuel)
    as (reports & b' & o' & E & Hinv').
  exists reports, b', o'. split; [exact E|].
  exact (inv_not_crossed _ Hinv').
Qed.

Lemma add_order_no_cross_witness :
  book_inv ex_book /\
  0 < quantity ex_limit_buy /\
  (type ex_limit_buy <> "market" -> price ex_limit_buy <> None) /\
  (List.length (opposite_of ex_book ex_limit_buy) <= 1)%nat /\
  exists reports b' o',
    add_order ex_clock 1 ex_book ex_limit_buy = Ok (reports, b', o') /\
    forall bb ba,
      hd_error (bids b') = Some bb -> hd_error (asks b') = Some ba ->
      price_rel Z.lt (price bb) (price ba).
Proof.
  assert (Hq : 0 < quantity ex_limit_buy) by reflexivity.
  assert (Hp : type ex_limit_buy <> "market" -> price ex_limit_buy <> None).
  { intros _. discriminate. }
  assert (Hl : (List.length (opposite_of ex_book ex_limit_buy) <= 1)%nat).
  { simpl. lia. }
  split; [exact ex_book_inv|]. split; [exact Hq|]. split; [exact Hp|].
  split; [exact Hl|].
  exact (add_order_no_cross ex_clock 1 ex_book ex_limit_buy ex_book_inv Hq Hp Hl).
Defined.

(** * Whole calls *)

(** ** The loop variables at the end of a call *)

Lemma iterates_inv :
  forall (body : MatchState -> Order -> list Order -> result flow)
         (I : MatchState -> Prop) s0,
  I s0 ->
  (forall s best rest s', I s -> 0 < quantity (st_order s) ->
     st_opposite s = best :: rest ->
     body s best rest = Ok (Continue s') -> I s') ->
  forall s, iterates body s0 s -> I s.
Proof.
  intros body I s0 H0 Hstep s Hit.
  induction Hit as [|s best rest s' _ IH Hq Eo Eb]; [exact H0|].
  eapply Hstep; eauto.
Qed.

Lemma body_of_market : forall now o,
  type o = "market" -> body_of now o = execute_market_body now.
Proof. intros now o Ht. unfold body_of. rewrite Ht. reflexivity. Qed.

Lemma body_of_resting : forall now o,
  type o <> "market" -> body_of now o = match_limit_body now.
Proof.
  intros now o Ht. unfold body_of. apply String.eqb_neq in Ht. rewrite Ht.
  reflexivity.
Qed.

(** A filling iteration of a limit loop passed both price tests. *)
Lemma match_limit_body_passed : forall now s best rest s',
  match_limit_body now s best rest = Ok (Continue s') ->
  s' = filled_state now s best rest
         (status_of (quantity (st_order s)
                     - Z.min (quantity (st_order s)) (quantity best) =? 0)) /\
  (side (st_order s) = "buy" ->
   py_gt (price best) (price (st_order s)) = Ok false) /\
  (side (st_order s) = "sell" ->
   py_lt (price best) (price (st_order s)) = Ok false).
Proof.
  intros now s best rest s' H.
  split; [exact (match_limit_body_continue now _ _ _ _ H)|].
  unfold match_limit_body in H.
  destruct (side (st_order s) =? "buy")%string eqn:Eb.
  - apply String.eqb_eq in Eb.
    destruct (py_gt (price best) (price (st_order s))) as [[|]| |];
      simpl in H; try discriminate.
    split; [reflexivity|]. intros Es. rewrite Es in Eb. discriminate.
  - apply String.eqb_neq in Eb. split; [intros Es; contradiction|].
    simpl in H.
    destruct (side (st_order s) =? "sell")%string eqn:Es.
    + destruct (py_lt (price best) (price (st_order s))) as [[|]| |];
        simpl in H; try discriminate. reflexivity.
    + apply String.eqb_neq in Es. intros E. contradiction.
Qed.

Lemma execute_market_body_filled : forall now s best rest,
  execute_market_body now s best rest =
  Ok (Continue
        (filled_state now s best rest
           (status_of
              ((quantity (st_order s)
                - Z.min (quantity (st_order s)) (quantity best) =? 0)
               || ((quantity best
                    - Z.min (quantity (st_order s)) (quantity best) =? 0)
                   && Nat.eqb (List.length (best :: rest)) 1))))).
Proof. reflexivity. Qed.

Lemma body_of_fills : forall now o s best rest s',
  body_of now o s best rest = Ok (Continue s') ->
  exists taker_status, s' = filled_state now s best rest taker_status.
Proof.
  intros now o s best rest s' H. unfold body_of in H.
  destruct (type o =? "market")%string.
  - rewrite execute_market_body_filled in H. injection H as <-. eauto.
  - apply match_limit_body_passed in H. destruct H as [-> _]. eauto.
Qed.

Lemma body_of_break : forall now o s best rest s',
  st_opposite s = best :: rest ->
  body_of now o s best rest = Ok (Break s') ->
  type o <> "market" /\ s' = s /\ price_stop s.
Proof.
  intros now o s best rest s' Eo H. unfold body_of in H.
  destruct (String.eqb_spec (type o) "market") as [Ht|Ht].
  - rewrite execute_market_body_filled in H. discriminate.
  - split; [assumption|].
    destruct (match_limit_body_break now _ _ _ _ H) as [-> Hstop].
    split; [reflexivity|]. exists best, rest. auto.
Qed.

Lemma while_matching_stops : forall now o fuel s sf,
  while_matching (body_of now o) fuel s = Ok sf ->
  quantity (st_order sf) <= 0 \/ st_opposite sf = [] \/
  (type o <> "market" /\ price_stop sf).
Proof.
  intros now o. induction fuel as [|fuel IH]; intros s sf H; simpl in H;
    destruct (Z.ltb_spec 0 (quantity (st_order s))) as [Hq|Hq];
    try (injection H as <-; auto);
    destruct (st_opposite s) as [|best rest] eqn:Eo;
    try (injection H as <-; auto); try discriminate.
  destruct (body_of now o s best rest) as [[s1|s1]| |] eqn:Eb;
    try discriminate.
  - eapply IH; eauto.
  - injection H as <-.
    destruct (body_of_break now o s best rest s1 Eo Eb) as (Ht & -> & Hstop).
    auto.
Qed.

Lemma while_matching_body_of_iterates : forall now o fuel s0 sf,
  while_matching (body_of now o) fuel s0 = Ok sf ->
  iterates (body_of now o) s0 sf.
Proof.
  intros now o fuel s0.
  assert (G : forall fuel s sf, iterates (body_of now o) s0 s ->
                while_matching (body_of now o) fuel s = Ok sf ->
                iterates (body_of now o) s0 sf).
  { clear fuel. induction fuel as [|fuel IH]; intros s sf Hit H; simpl in H;
      destruct (Z.ltb_spec 0 (quantity (st_order s))) as [Hq|Hq];
      try (injection H as <-; assumption);
      destruct (st_opposite s) as [|best rest] eqn:Eo;
      try (injection H as <-; assumption); try discriminate.
    destruct (body_of now o s best rest) as [[s1|s1]| |] eqn:Eb;
      try discriminate.
    - eapply IH; [|exact H]. eapply iterates_next; eauto.
    - injection H as <-.
      destruct (body_of_break now o s best rest s1 Eo Eb) as (_ & -> & _).
      assumption. }
  intros sf H. eapply G; [apply iterates_start | exact H].
Qed.

(** Along a run the incoming order changes in its quantity only. *)
Lemma iterates_same_order : forall now o s0 s,
  st_order s0 = o ->
  iterates (body_of now o) s0 s ->
  st_order s = with_quantity o (quantity (st_order s)).
Proof.
  intros now o s0 s E0 Hit.
  apply (iterates_inv (body_of now o)
           (fun s => st_order s = with_quantity o (quantity (st_order s)))
           s0); [| |exact Hit].
  - rewrite E0. destruct o; reflexivity.
  - intros s1 best rest s' HI _ _ Eb.
    destruct (body_of_fills now o _ _ _ _ Eb) as [st ->].
    simpl. rewrite HI at 1. reflexivity.
Qed.

(** What a call that returns has done. *)
Lemma add_order_outcome : forall now fuel b o reports b' o',
  add_order now fuel b o = Ok (reports, b', o') ->
  exists sf, call_outcome now b o reports b' o' sf.
Proof.
  intros now fuel b o reports b' o' H.
  assert (Hloop : forall sf,
            while_matching (body_of now o) fuel (start b o) = Ok sf ->
            iterates (body_of now o) (start b o) sf /\
            st_order sf = with_quantity o (quantity (st_order sf)) /\
            side (st_order sf) = side o /\
            (quantity (st_order sf) <= 0 \/ st_opposite sf = [] \/
             (type o <> "market" /\ price_stop sf))).
  { intros sf E.
    pose proof (while_matching_body_of_iterates now o fuel _ _ E) as Hit.
    pose proof (iterates_same_order now o (start b o) sf eq_refl Hit) as Ho.
    repeat split; try assumption.
    - rewrite Ho. reflexivity.
    - eapply while_matching_stops; eauto. }
  destruct (String.eqb_spec (type o) "market") as [Ht|Ht].
  - rewrite add_order_market in H by assumption.
    rewrite <- (body_of_market now o Ht) in H.
    destruct (while_matching (body_of now o) fuel (start b o))
      as [sf| |] eqn:E; try discriminate.
    destruct (Hloop sf eq_refl) as (Hit & Ho & Es & Hex).
    simpl in H. unfold finish in H. injection H as <- <- <-.
    exists sf. rewrite store_opposite_sides, Es.
    rewrite (own_side_same_side _ _ _ Es).
    constructor; try reflexivity; try assumption.
    + apply book_symbol_of_sides.
    + apply opposite_of_sides.
    + intros _. apply own_side_of_sides.
    + intros Hn. contradiction.
    + intros Hn. contradiction.
  - rewrite add_order_resting in H by assumption.
    rewrite <- (body_of_resting now o Ht) in H.
    destruct (while_matching (body_of now o) fuel (start b o))
      as [sf| |] eqn:E; try discriminate.
    destruct (Hloop sf eq_refl) as (Hit & Ho & Es & Hex).
    simpl in H. exists sf.
    destruct (Z.ltb_spec 0 (quantity (st_order sf))) as [Hq|Hq].
    + rewrite insert_resting_sides in H.
      rewrite store_opposite_sides in H.
      rewrite Es, !(own_side_same_side _ _ _ Es),
        !(opposite_of_same_side _ _ _ Es) in H.
      rewrite own_side_of_sides, opposite_of_sides, book_symbol_of_sides in H.
      destruct (insertion_index (st_order sf) (own_side b o) O)
        as [idx| |] eqn:Ei; try discriminate.
      simpl in H. injection H as <- <- <-.
      constructor; try reflexivity; try assumption.
      * apply book_symbol_of_sides.
      * apply opposite_of_sides.
      * intros Hm. contradiction.
      * intros _ Hle. lia.
      * intros _ _. exists idx. split; [assumption|].
        apply own_side_of_sides.
    + unfold finish in H. injection H as <- <- <-.
      rewrite store_opposite_sides, Es, (own_side_same_side _ _ _ Es).
      constructor; try reflexivity; try assumption.
      * apply book_symbol_of_sides.
      * apply opposite_of_sides.
      * intros Hm. contradiction.
      * intros _ _. apply own_side_of_sides.
      * intros _ Hlt. lia.
Qed.

(** ** Sums, pairs and prefixes *)

Lemma total_qty_app : forall l1 l2,
  total_qty (l1 ++ l2) = total_qty l1 + total_qty l2.
Proof.
  induction l1 as [|x l1 IH]; intros l2; unfold total_qty in *; simpl.
  - reflexivity.
  - rewrite IH. lia.
Qed.

Lemma total_qty_insert : forall idx x l,
  total_qty (list_insert idx x l) = total_qty l + quantity x.
Proof.
  intros idx x l. unfold list_insert.
  rewrite <- (firstn_skipn idx l) at 3.
  rewrite !total_qty_app. unfold total_qty at 2. simpl.
  fold (total_qty (skipn idx l)). lia.
Qed.

Lemma total_qty_settle : forall best rest q,
  total_qty (settle_head (with_quantity best (quantity best - q)) rest)
  = total_qty (best :: rest) - q.
Proof.
  intros best rest q. unfold settle_head. simpl.
  destruct (Z.eqb_spec (quantity best - q) 0) as [E|E];
    unfold total_qty; simpl; lia.
Qed.


Lemma makers_app_pair : forall n l a b,
  List.length l = (2 * n)%nat ->
  makers (l ++ [a; b]) = (makers l ++ [b])%list.
Proof.
  induction n as [|n IH]; intros l a b Hl.
  - destruct l; [reflexivity | discriminate].
  - destruct l as [|x [|y l]]; simpl in Hl; try lia.
    simpl. rewrite IH by lia. reflexivity.
Qed.

Lemma all_pairs_app_pair : forall (P : Report -> Report -> Prop) n l a b,
  List.length l = (2 * n)%nat ->
  all_pairs P l -> P a b -> all_pairs P (l ++ [a; b]).
Proof.
  intros P. induction n as [|n IH]; intros l a b Hl Hall Hab.
  - destruct l; [simpl; auto | discriminate].
  - destruct l as [|x [|y l]]; simpl in Hl; try lia.
    simpl in *. destruct Hall as [Hxy Hall]. split; [assumption|].
    apply IH; [lia | assumption | assumption].
Qed.

Lemma all_pairs_even : forall (P : Report -> Report -> Prop) l,
  all_pairs P l -> exists n, List.length l = (2 * n)%nat.
Proof.
  intros P.
  assert (G : forall k l, (List.length l <= k)%nat -> all_pairs P l ->
                exists n, List.length l = (2 * n)%nat).
  { induction k as [|k IH]; intros l Hk Hl.
    - destruct l; [exists O; reflexivity | simpl in Hk; lia].
    - destruct l as [|x [|y l]]; simpl in *; try contradiction.
      + exists O. reflexivity.
      + destruct Hl as [_ Hl]. destruct (IH l) as [n Hn]; [lia | assumption|].
        exists (S n). lia. }
  intros l. apply (G (List.length l)). lia.
Qed.

(** The opposite sequence keeps every stable property along a run. *)
Lemma settle_head_stable : forall (Q : list Order -> Prop) best rest q,
  stable Q -> Q (best :: rest) ->
  Q (settle_head (with_quantity best (quantity best - Z.min q (quantity best)))
       rest).
Proof.
  intros Q best rest q HQ H. unfold settle_head. simpl.
  destruct (HQ _ _ H) as [Hr Hc].
  destruct (Z.eqb_spec (quantity best - Z.min q (quantity best)) 0);
    [assumption|]. apply Hc. lia.
Qed.

Lemma iterates_stable : forall now o (Q : list Order -> Prop) s0 s,
  stable Q -> Q (st_opposite s0) ->
  iterates (body_of now o) s0 s -> Q (st_opposite s).
Proof.
  intros now o Q s0 s HQ H0 Hit.
  apply (iterates_inv (body_of now o) (fun s => Q (st_opposite s)) s0);
    [assumption | | assumption].
  intros s1 best rest s' HI _ Eo Eb.
  destruct (body_of_fills now o _ _ _ _ Eb) as [st ->]. simpl.
  apply settle_head_stable; [assumption|]. rewrite <- Eo. assumption.
Qed.


(** The reports of a run come in pairs and account for what the incoming
    order and the opposite sequence have lost. *)
Lemma iterates_accounts : forall now o s0 s,
  st_reports s0 = [] ->
  iterates (body_of now o) s0 s ->
  (exists n, List.length (st_reports s) = (2 * n)%nat) /\
  quantity (st_order s) + total_filled (takers (st_reports s))
    = quantity (st_order s0) /\
  total_qty (st_opposite s) + total_filled (takers (st_reports s))
    = total_qty (st_opposite s0) /\
  total_filled (makers (st_reports s)) = total_filled (takers (st_reports s)).
Proof.
  intros now o s0 s E0 Hit.
  apply (iterates_inv (body_of now o)
    (fun s =>
       (exists n, List.length (st_reports s) = (2 * n)%nat) /\
       quantity (st_order s) + total_filled (takers (st_reports s))
         = quantity (st_order s0) /\
       total_qty (st_opposite s) + total_filled (takers (st_reports s))
         = total_qty (st_opposite s0) /\
       total_filled (makers (st_reports s))
         = total_filled (takers (st_reports s))) s0);
    [| |assumption].
  - rewrite E0. unfold total_filled. simpl.
    split; [exists O; reflexivity|]. repeat split; lia.
  - intros s1 best rest s' ([n Hn] & Hq & Ho & Hm) _ Eo Eb.
    destruct (body_of_fills now o _ _ _ _ Eb) as [st ->]. simpl.
    rewrite (takers_app_pair n), (makers_app_pair n) by assumption.
    rewrite !total_filled_app, total_qty_settle, <- Eo.
    unfold total_filled at 2 4 6 8. simpl.
    split; [exists (S n); rewrite length_app; simpl; lia|].
    repeat split; lia.
Qed.

(** ** Quantities over a whole call *)

(** X1: over a whole call that returns, for every type of order, the
    incoming order loses exactly the sum of the filled quantities of the
    taker reports, the opposite sequence loses the same sum, and the maker
    reports add up to it as well; the own side gains the remainder of an
    order that is not a market order when that remainder is positive, and
    nothing otherwise.  No quantity appears or is lost. *)
Theorem add_order_conserves_quantity : forall now fuel b o reports b' o',
  add_order now fuel b o = Ok (reports, b', o') ->
  quantity o - quantity o' = total_filled (takers reports) /\
  total_qty (opposite_of b o) - total_qty (opposite_of b' o)
    = total_filled (takers reports) /\
  total_filled (makers reports) = total_filled (takers reports) /\
  total_qty (own_side b' o)
    = total_qty (own_side b o)
      + (if (type o =? "market")%string then 0 else Z.max 0 (quantity o')).
Proof.
  intros now fuel b o reports b' o' H.
  destruct (add_order_outcome now fuel b o _ _ _ H) as [sf Hout].
  destruct (iterates_accounts now o (start b o) sf eq_refl
              (out_iterates _ _ _ _ _ _ _ Hout)) as (_ & Hq & Ho & Hm).
  rewrite (out_reports _ _ _ _ _ _ _ Hout), (out_order _ _ _ _ _ _ _ Hout),
    (out_opposite _ _ _ _ _ _ _ Hout).
  simpl in Hq, Ho.
  split; [lia|]. split; [lia|]. split; [assumption|].
  rewrite <- (out_order _ _ _ _ _ _ _ Hout).
  destruct (String.eqb_spec (type o) "market") as [Ht|Ht].
  - rewrite (out_own_market _ _ _ _ _ _ _ Hout Ht). lia.
  - destruct (Z.le_gt_cases (quantity o') 0) as [Hle|Hgt].
    + rewrite (out_own_filled _ _ _ _ _ _ _ Hout Ht Hle). lia.
    + destruct (out_own_rests _ _ _ _ _ _ _ Hout Ht) as (idx & _ & ->);
        [lia|].
      rewrite total_qty_insert. lia.
Qed.

Lemma add_order_conserves_quantity_witness :
  exists reports b' o',
    add_order ex_clock 3 ex_deep_book ex_sweep = Ok (reports, b', o') /\
    quantity ex_sweep - quantity o' = total_filled (takers reports) /\
    total_qty (opposite_of ex_deep_book ex_sweep)
      - total_qty (opposite_of b' ex_sweep)
      = total_filled (takers reports) /\
    total_filled (makers reports) = total_filled (takers reports) /\
    total_qty (own_side b' ex_sweep)
      = total_qty (own_side ex_deep_book ex_sweep)
        + (if (type ex_sweep =? "market")%string then 0
           else Z.max 0 (quantity o')).
Proof.
  do 3 eexists. split; [reflexivity|].
  exact (add_order_conserves_quantity ex_clock 3 ex_deep_book ex_sweep
           _ _ _ eq_refl).
Defined.



(** X3: against an opposite side of positive quantities no report of a
    call carries an empty fill: every filled quantity is positive. *)
Theorem fills_are_positive : forall now fuel b o reports b' o',
  all_positive (opposite_of b o) ->
  add_order now fuel b o = Ok (reports, b', o') ->
  Forall (fun r => 0 < filled_qty r) reports.
Proof.
  intros now fuel b o reports b' o' Hpos H.
  destruct (add_order_outcome now fuel b o _ _ _ H) as [sf Hout].
  rewrite (out_reports _ _ _ _ _ _ _ Hout).
  pose proof (out_iterates _ _ _ _ _ _ _ Hout) as Hit.
  apply (iterates_inv (body_of now o)
    (fun s => all_positive (st_opposite s) /\
              Forall (fun r => 0 < filled_qty r) (st_reports s))
    (start b o)); [| |exact Hit].
  - split; [exact Hpos | constructor].
  - intros s best rest s' [Hp Hr] Hq Eo Eb.
    destruct (body_of_fills now o _ _ _ _ Eb) as [st ->]. simpl.
    rewrite Eo in Hp.
    split; [apply settle_head_stable; [apply stable_positive | assumption]|].
    inversion Hp; subst.
    apply Forall_app. split; [assumption|].
    repeat constructor; simpl; lia.
Qed.

Lemma fills_are_positive_witness :
  all_positive (opposite_of ex_deep_book ex_sweep) /\
  exists reports b' o',
    add_order ex_clock 3 ex_deep_book ex_sweep = Ok (reports, b', o') /\
    Forall (fun r => 0 < filled_qty r) reports.
Proof.
  assert (Hp : all_positive (opposite_of ex_deep_book ex_sweep)).
  { repeat constructor. }
  split; [exact Hp|].
  do 3 eexists. split; [reflexivity|].
  exact (fills_are_positive ex_clock 3 ex_deep_book ex_sweep _ _ _ Hp eq_refl).
Defined.

(** ** The reports of a whole call *)

(** X4: an order that is not a market order never trades beyond its limit:
    in every report of the call the execution price is defined and is at
    most the order's price for a buy order, at least the order's price for
    a sell order. *)
Theorem limit_price_respected : forall now fuel b o reports b' o',
  type o <> "market" ->
  add_order now fuel b o = Ok (reports, b', o') ->
  Forall (fun r => within_limit o (rep_price r)) reports.
Proof.
  intros now fuel b o reports b' o' Ht H.
  destruct (add_order_outcome now fuel b o _ _ _ H) as [sf Hout].
  rewrite (out_reports _ _ _ _ _ _ _ Hout).
  pose proof (out_iterates _ _ _ _ _ _ _ Hout) as Hit.
  apply (iterates_inv (body_of now o)
    (fun s => st_order s = with_quantity o (quantity (st_order s)) /\
              Forall (fun r => within_limit o (rep_price r)) (st_reports s))
    (start b o)); [| |exact Hit].
  - split; [destruct o; reflexivity | constructor].
  - intros s best rest s' [Ho Hr] Hq Eo Eb.
    rewrite (body_of_resting now o Ht) in Eb.
    destruct (match_limit_body_passed now _ _ _ _ Eb) as (-> & Hbuy & Hsell).
    simpl. split; [rewrite Ho at 1; reflexivity|].
    assert (Es : side (st_order s) = side o) by (rewrite Ho; reflexivity).
    assert (Ep : price (st_order s) = price o) by (rewrite Ho; reflexivity).
    rewrite Es, Ep in *.
    assert (Hw : within_limit o (price best)).
    { split; intros E.
      - specialize (Hbuy E). unfold py_gt in Hbuy.
        destruct (price best), (price o); simpl; try discriminate.
        injection Hbuy as Hbuy. lia.
      - specialize (Hsell E). unfold py_lt in Hsell.
        destruct (price best), (price o); simpl; try discriminate.
        injection Hsell as Hsell. lia. }
    apply Forall_app. split; [assumption|].
    constructor; [exact Hw|]. constructor; [exact Hw | constructor].
Qed.

Lemma limit_price_respected_witness :
  type ex_sweep <> "market" /\
  exists reports b' o',
    add_order ex_clock 3 ex_deep_book ex_sweep = Ok (reports, b', o') /\
    Forall (fun r => within_limit ex_sweep (rep_price r)) reports.
Proof.
  assert (Ht : type ex_sweep <> "market") by discriminate.
  split; [exact Ht|].
  do 3 eexists. split; [reflexivity|].
  exact (limit_price_respected ex_clock 3 ex_deep_book ex_sweep _ _ _ Ht eq_refl).
Defined.

(** X5: the reports of a call are a sequence of pairs, the taker's report
    then the maker's: the taker's report carries the identifier, symbol and
    side of the incoming order, and the two reports of a pair carry the same
    filled quantity, price and timestamp. *)
Theorem reports_come_in_pairs : forall now fuel b o reports b' o',
  add_order now fuel b o = Ok (reports, b', o') ->
  all_pairs
    (fun t m =>
       order_id t = id o /\ rep_symbol t = symbol o /\ rep_side t = side o /\
       filled_qty m = filled_qty t /\ rep_price m = rep_price t /\
       timestamp m = timestamp t)
    reports.
Proof.
  intros now fuel b o reports b' o' H.
  destruct (add_order_outcome now fuel b o _ _ _ H) as [sf Hout].
  rewrite (out_reports _ _ _ _ _ _ _ Hout).
  pose proof (out_iterates _ _ _ _ _ _ _ Hout) as Hit.
  set (P := fun t m : Report =>
       order_id t = id o /\ rep_symbol t = symbol o /\ rep_side t = side o /\
       filled_qty m = filled_qty t /\ rep_price m = rep_price t /\
       timestamp m = timestamp t).
  apply (iterates_inv (body_of now o)
    (fun s => st_order s = with_quantity o (quantity (st_order s)) /\
              all_pairs P (st_reports s))
    (start b o)); [| |exact Hit].
  - split; [destruct o; reflexivity | exact I].
  - intros s best rest s' [Ho Hr] Hq Eo Eb.
    destruct (body_of_fills now o _ _ _ _ Eb) as [st ->]. simpl.
    split; [rewrite Ho at 1; reflexivity|].
    destruct (all_pairs_even _ _ Hr) as [n Hn].
    apply (all_pairs_app_pair P n); [assumption | assumption|].
    unfold P. simpl. rewrite Ho. simpl. repeat split.
Qed.

Lemma reports_come_in_pairs_witness :
  exists reports b' o',
    add_order ex_clock 3 ex_deep_book ex_sweep = Ok (reports, b', o') /\
    all_pairs
      (fun t m =>
         order_id t = id ex_sweep /\ rep_symbol t = symbol ex_sweep /\
         rep_side t = side ex_sweep /\
         filled_qty m = filled_qty t /\ rep_price m = rep_price t /\
         timestamp m = timestamp t)
      reports.
Proof.
  do 3 eexists. split; [reflexivity|].
  exact (reports_come_in_pairs ex_clock 3 ex_deep_book ex_sweep _ _ _ eq_refl).
Defined.

(** The maker reports of a run follow the opposite sequence: [f] reads in
    a maker's report what [g] reads in the resting order it reports. *)
Lemma iterates_makers :
  forall (A : Type) (f : Report -> A) (g : Order -> A) now o s0 s,
  (forall x q ts st,
     f (mkReport (id x) (symbol x) (side x) q (price x) ts st) = g x) ->
  st_reports s0 = [] ->
  iterates (body_of now o) s0 s ->
  (exists done,
     st_opposite s0 = (done ++ st_opposite s)%list /\
     map f (makers (st_reports s)) = map g done) \/
  (quantity (st_order s) <= 0 /\
   exists done h rem q',
     st_opposite s0 = (done ++ h :: rem)%list /\
     st_opposite s = with_quantity h q' :: rem /\
     map f (makers (st_reports s)) = map g (done ++ [h])).
Proof.
  intros A f g now o s0 s Hfg E0 Hit.
  apply (iterates_inv (body_of now o)
    (fun s =>
       (exists n, List.length (st_reports s) = (2 * n)%nat) /\
       ((exists done,
           st_opposite s0 = (done ++ st_opposite s)%list /\
           map f (makers (st_reports s)) = map g done) \/
        (quantity (st_order s) <= 0 /\
         exists done h rem q',
           st_opposite s0 = (done ++ h :: rem)%list /\
           st_opposite s = with_quantity h q' :: rem /\
           map f (makers (st_reports s)) = map g (done ++ [h]))))
    s0); [| |exact Hit].
  - rewrite E0. split; [exists O; reflexivity|].
    left. exists []. split; reflexivity.
  - intros s1 best rest s' ([n Hn] & Hcase) Hq Eo Eb.
    destruct (body_of_fills now o _ _ _ _ Eb) as [st ->]. simpl.
    split; [exists (S n); rewrite length_app; simpl; lia|].
    destruct Hcase as [(done & Hopp & Hids) | (Hz & _)]; [|lia].
    rewrite (makers_app_pair n) by assumption.
    rewrite map_app, Hids. simpl. rewrite Hfg. rewrite Eo in Hopp.
    unfold settle_head. simpl.
    destruct (Z.eqb_spec
                (quantity best - Z.min (quantity (st_order s1)) (quantity best))
                0) as [E|E].
    + left. exists (done ++ [best])%list.
      rewrite <- app_assoc, map_app. simpl. split; [assumption | reflexivity].
    + right. split; [lia|].
      exists done, best, rest. eexists.
      rewrite map_app. simpl. repeat split. assumption.
Qed.

(** X6: matching follows the order of the book (price-time priority): the
    maker reports of a call name, in order, the first resting orders of the
    opposite sequence, each once.  Either all of them were used up and
    removed, and the opposite sequence is left with exactly the orders
    behind them, untouched; or the last of them was filled in part, stays
    at the head with a new quantity in front of the untouched orders behind
    it, and the incoming order has nothing left. *)
Theorem matching_follows_book_order : forall now fuel b o reports b' o',
  add_order now fuel b o = Ok (reports, b', o') ->
  (exists done,
     opposite_of b o = (done ++ opposite_of b' o)%list /\
     map order_id (makers reports) = map id done) \/
  (quantity o' <= 0 /\
   exists done h rem q',
     opposite_of b o = (done ++ h :: rem)%list /\
     opposite_of b' o = with_quantity h q' :: rem /\
     map order_id (makers reports) = map id (done ++ [h])).
Proof.
  intros now fuel b o reports b' o' H.
  destruct (add_order_outcome now fuel b o _ _ _ H) as [sf Hout].
  rewrite (out_reports _ _ _ _ _ _ _ Hout), (out_order _ _ _ _ _ _ _ Hout),
    (out_opposite _ _ _ _ _ _ _ Hout).
  exact (iterates_makers string order_id id now o (start b o) sf
           (fun _ _ _ _ => eq_refl) eq_refl
           (out_iterates _ _ _ _ _ _ _ Hout)).
Qed.

Lemma matching_follows_book_order_witness :
  exists reports b' o',
    add_order ex_clock 3 ex_deep_book ex_sweep = Ok (reports, b', o') /\
    ((exists done,
        opposite_of ex_deep_book ex_sweep
          = (done ++ opposite_of b' ex_sweep)%list /\
        map order_id (makers reports) = map id done) \/
     (quantity o' <= 0 /\
      exists done h rem q',
        opposite_of ex_deep_book ex_sweep = (done ++ h :: rem)%list /\
        opposite_of b' ex_sweep = with_quantity h q' :: rem /\
        map order_id (makers reports) = map id (done ++ [h]))).
Proof.
  do 3 eexists. split; [reflexivity|].
  exact (matching_follows_book_order ex_clock 3 ex_deep_book ex_sweep
           _ _ _ eq_refl).
Defined.

(** X7: an order that is not a market order is reported "filled" at most
    once and only at the end: all the taker reports of the call but the
    last say "partial_fill", and the last one says "filled" exactly when
    the order comes back with nothing left. *)
Theorem limit_order_filled_at_the_end : forall now fuel b o reports b' o',
  type o <> "market" ->
  add_order now fuel b o = Ok (reports, b', o') ->
  reports = [] \/
  exists r0 t m,
    reports = (r0 ++ [t; m])%list /\
    Forall (fun x => status x = "partial_fill") (takers r0) /\
    (status t = "filled" <-> quantity o' = 0) /\
    (status t = "partial_fill" <-> quantity o' <> 0).
Proof.
  intros now fuel b o reports b' o' Ht H.
  destruct (add_order_outcome now fuel b o _ _ _ H) as [sf Hout].
  rewrite (out_reports _ _ _ _ _ _ _ Hout), (out_order _ _ _ _ _ _ _ Hout).
  pose proof (out_iterates _ _ _ _ _ _ _ Hout) as Hit.
  assert (G :
    (exists n, List.length (st_reports sf) = (2 * n)%nat) /\
    (st_reports sf = [] \/
     exists r0 t m,
       st_reports sf = (r0 ++ [t; m])%list /\
       Forall (fun x => status x = "partial_fill") (takers r0) /\
       status t = status_of (quantity (st_order sf) =? 0))).
  { apply (iterates_inv (body_of now o)
      (fun s =>
         (exists n, List.length (st_reports s) = (2 * n)%nat) /\
         (st_reports s = [] \/
          exists r0 t m,
            st_reports s = (r0 ++ [t; m])%list /\
            Forall (fun x => status x = "partial_fill") (takers r0) /\
            status t = status_of (quantity (st_order s) =? 0)))
      (start b o)); [| |exact Hit].
    - split; [exists O; reflexivity | left; reflexivity].
    - intros s best rest s' ([n Hn] & Hcase) Hq Eo Eb.
      rewrite (body_of_resting now o Ht) in Eb.
      destruct (match_limit_body_passed now _ _ _ _ Eb) as (-> & _).
      simpl. split; [exists (S n); rewrite length_app; simpl; lia|].
      right. do 3 eexists. split; [reflexivity|]. split; [|reflexivity].
      destruct Hcase as [E|(r0 & t & m & E & Hr0 & Hst)];
        rewrite E in *; [constructor|].
      rewrite length_app in Hn. simpl in Hn.
      rewrite (takers_app_pair (pred n)) by lia.
      apply Forall_app. split; [assumption|].
      constructor; [|constructor]. rewrite Hst.
      destruct (Z.eqb_spec (quantity (st_order s)) 0); [lia | reflexivity]. }
  destruct G as [_ [E|(r0 & t & m & E & Hr0 & Hst)]]; [left; exact E|].
  right. exists r0, t, m. split; [exact E|]. split; [exact Hr0|].
  rewrite Hst, status_of_filled, status_of_partial, Z.eqb_eq, Z.eqb_neq.
  split; reflexivity.
Qed.

Lemma limit_order_filled_at_the_end_witness :
  type ex_sweep <> "market" /\
  exists reports b' o',
    add_order ex_clock 3 ex_deep_book ex_sweep = Ok (reports, b', o') /\
    (reports = [] \/
     exists r0 t m,
       reports = (r0 ++ [t; m])%list /\
       Forall (fun x => status x = "partial_fill") (takers r0) /\
       (status t = "filled" <-> quantity o' = 0) /\
       (status t = "partial_fill" <-> quantity o' <> 0)).
Proof.
  assert (Ht : type ex_sweep <> "market") by discriminate.
  split; [exact Ht|].
  do 3 eexists. split; [reflexivity|].
  exact (limit_order_filled_at_the_end ex_clock 3 ex_deep_book ex_sweep
           _ _ _ Ht eq_refl).
Defined.

(** X8: the last taker report of a market order always says "filled",
    whatever was filled: when a market order produces reports, all its
    taker reports but the last say "partial_fill" and the last says
    "filled", also when the opposite side ran out and part of the order is
    dropped. *)
Theorem market_order_last_report_filled : forall now fuel b o reports b' o',
  type o = "market" ->
  add_order now fuel b o = Ok (reports, b', o') ->
  reports = [] \/
  exists r0 t m,
    reports = (r0 ++ [t; m])%list /\
    Forall (fun x => status x = "partial_fill") (takers r0) /\
    status t = "filled".
Proof.
  intros now fuel b o reports b' o' Ht H.
  destruct (add_order_outcome now fuel b o _ _ _ H) as [sf Hout].
  rewrite (out_reports _ _ _ _ _ _ _ Hout).
  pose proof (out_iterates _ _ _ _ _ _ _ Hout) as Hit.
  assert (G :
    (exists n, List.length (st_reports sf) = (2 * n)%nat) /\
    (st_reports sf = [] \/
     (0 <= quantity (st_order sf) /\
      exists r0 t m,
        st_reports sf = (r0 ++ [t; m])%list /\
        Forall (fun x => status x = "partial_fill") (takers r0) /\
        status t = status_of
                     ((quantity (st_order sf) =? 0)
                      || match st_opposite sf with [] => true | _ => false end)))).
  { apply (iterates_inv (body_of now o)
      (fun s =>
         (exists n, List.length (st_reports s) = (2 * n)%nat) /\
         (st_reports s = [] \/
          (0 <= quantity (st_order s) /\
           exists r0 t m,
             st_reports s = (r0 ++ [t; m])%list /\
             Forall (fun x => status x = "partial_fill") (takers r0) /\
             status t = status_of
                          ((quantity (st_order s) =? 0)
                           || match st_opposite s with
                              | [] => true
                              | _ => false
                              end))))
      (start b o)); [| |exact Hit].
    - split; [exists O; reflexivity | left; reflexivity].
    - intros s best rest s' ([n Hn] & Hcase) Hq Eo Eb.
      rewrite (body_of_market now o Ht), execute_market_body_filled in Eb.
      injection Eb as <-. simpl.
      split; [exists (S n); rewrite length_app; simpl; lia|].
      right. split; [lia|].
      do 3 eexists. split; [reflexivity|]. split.
      + destruct Hcase as [E|(_ & r0 & t & m & E & Hr0 & Hst)];
          rewrite E in *; [constructor|].
        rewrite length_app in Hn. simpl in Hn.
        rewrite (takers_app_pair (pred n)) by lia.
        apply Forall_app. split; [assumption|].
        constructor; [|constructor]. rewrite Hst, Eo.
        destruct (Z.eqb_spec (quantity (st_order s)) 0); [lia | reflexivity].
      + f_equal. f_equal. unfold settle_head. simpl.
        destruct (quantity best
                  - Z.min (quantity (st_order s)) (quantity best) =? 0);
          destruct rest; reflexivity. }
  destruct G as [_ [E|(Hnn & r0 & t & m & E & Hr0 & Hst)]]; [left; exact E|].
  right. exists r0, t, m. split; [exact E|]. split; [exact Hr0|].
  rewrite Hst. apply status_of_filled.
  destruct (out_exit _ _ _ _ _ _ _ Hout) as [Hz|[Hnil|[Hn _]]];
    [| |contradiction].
  - rewrite (out_order _ _ _ _ _ _ _ Hout) in Hz.
    replace (quantity (st_order sf)) with 0 by lia. reflexivity.
  - rewrite Hnil. apply Bool.orb_true_r.
Qed.

Lemma market_order_last_report_filled_witness :
  type ex_market_buy = "market" /\
  exists reports b' o',
    add_order ex_clock 1 ex_book ex_market_buy = Ok (reports, b', o') /\
    (reports = [] \/
     exists r0 t m,
       reports = (r0 ++ [t; m])%list /\
       Forall (fun x => status x = "partial_fill") (takers r0) /\
       status t = "filled").
Proof.
  assert (Ht : type ex_market_buy = "market") by reflexivity.
  split; [exact Ht|].
  do 3 eexists. split; [reflexivity|].
  exact (market_order_last_report_filled ex_clock 1 ex_book ex_market_buy
           _ _ _ Ht eq_refl).
Defined.

(** ** The book over calls *)

(** X9: a call keeps both sides in price-time priority: when the bids are
    sorted by descending price, the asks by ascending price, and the order
    has a price unless it is a market order, both sides of the book the
    call leaves are sorted again. *)
Theorem add_order_keeps_sides_sorted : forall now fuel b o reports b' o',
  side_sorted true (bids b) ->
  side_sorted false (asks b) ->
  (type o <> "market" -> price o <> None) ->
  add_order now fuel b o = Ok (reports, b', o') ->
  side_sorted true (bids b') /\ side_sorted false (asks b').
Proof.
  intros now fuel b o reports b' o' Hb Ha Hprice H.
  destruct (add_order_outcome now fuel b o _ _ _ H) as [sf Hout].
  pose proof (out_iterates _ _ _ _ _ _ _ Hout) as Hit.
  set (buy := (side o =? "buy")%string).
  assert (Hown : side_sorted buy (own_side b o)).
  { unfold own_side, buy. destruct (side o =? "buy")%string; assumption. }
  assert (Hopp : side_sorted (negb buy) (opposite_of b o)).
  { unfold opposite_of, buy. destruct (side o =? "buy")%string; assumption. }
  assert (Hopp' : side_sorted (negb buy) (opposite_of b' o)).
  { rewrite (out_opposite _ _ _ _ _ _ _ Hout).
    exact (iterates_stable now o _ (start b o) sf (stable_sorted _) Hopp Hit). }
  assert (Hown' : side_sorted buy (own_side b' o)).
  { destruct (String.eqb_spec (type o) "market") as [Ht|Ht].
    - rewrite (out_own_market _ _ _ _ _ _ _ Hout Ht). assumption.
    - destruct (Z.le_gt_cases (quantity o') 0) as [Hle|Hgt].
      + rewrite (out_own_filled _ _ _ _ _ _ _ Hout Ht Hle). assumption.
      + destruct (out_own_rests _ _ _ _ _ _ _ Hout Ht) as (idx & Ei & ->);
          [lia|].
        destruct (price o) as [p|] eqn:Ep; [|exfalso; apply Hprice; auto].
        pose proof (out_same_order _ _ _ _ _ _ _ Hout) as Eo'.
        assert (Ep' : price o' = Some p) by (rewrite Eo'; exact Ep).
        assert (Es' : side o' = side o) by (rewrite Eo'; reflexivity).
        assert (Hown2 : side_sorted (side o' =? "buy")%string (own_side b o)).
        { rewrite Es'. exact Hown. }
        destruct (insertion_index_sorted o' p Ep' (own_side b o) O Hown2)
          as (l1 & l2 & Hsp & Ei').
        rewrite Ei in Ei'. injection Ei' as ->.
        pose proof Hsp as (El & _ & _). rewrite El at 1.
        rewrite list_insert_app. unfold buy. rewrite <- Es'.
        eapply splits_at_sorted; eauto. }
  unfold own_side in Hown'. unfold opposite_of in Hopp'. unfold buy in *.
  destruct (side o =? "buy")%string; simpl in *; split; assumption.
Qed.

Lemma add_order_keeps_sides_sorted_witness :
  side_sorted true (bids ex_book) /\
  side_sorted false (asks ex_book) /\
  (type ex_stop_sell <> "market" -> price ex_stop_sell <> None) /\
  exists reports b' o',
    add_order ex_clock 1 ex_book ex_stop_sell = Ok (reports, b', o') /\
    side_sorted true (bids b') /\ side_sorted false (asks b').
Proof.
  assert (Hb : side_sorted true (bids ex_book)).
  { split; repeat constructor. discriminate. }
  assert (Ha : side_sorted false (asks ex_book)).
  { split; repeat constructor. discriminate. }
  assert (Hp : type ex_stop_sell <> "market" -> price ex_stop_sell <> None).
  { intros _. discriminate. }
  split; [exact Hb|]. split; [exact Ha|]. split; [exact Hp|].
  do 3 eexists. split; [reflexivity|].
  exact (add_order_keeps_sides_sorted ex_clock 1 ex_book ex_stop_sell
           _ _ _ Hb Ha Hp eq_refl).
Defined.

(** X10: every book a session reaches from the empty book of [__init__],
    through calls of [add_order] for orders that have a price unless they
    are market orders, keeps its symbol and satisfies the invariants: both
    sides sorted, every resting quantity positive, best bid strictly below
    best ask. *)
Theorem reachable_books_are_well_formed : forall now sym b,
  reachable now sym b -> book_inv b /\ book_symbol b = sym.
Proof.
  intros now sym b Hr.
  induction Hr as [|b o fuel reports b' o' _ [Hinv Hsym] Hprice H].
  - split; [|reflexivity].
    constructor; simpl; try apply side_sorted_nil; try constructor.
    intros bb ba Hb. discriminate.
  - split.
    + destruct (add_order_preserves_inv now
                  (Nat.max fuel (List.length (opposite_of b o))) b o
                  Hinv Hprice (Nat.le_max_r _ _))
        as (r2 & b2 & o2 & E2 & Hinv2).
      rewrite (add_order_fuel_mono now _ _ _ _ _ H (Nat.le_max_l _ _)) in E2.
      injection E2 as _ <- _. exact Hinv2.
    + destruct (add_order_outcome now fuel b o _ _ _ H) as [sf Hout].
      rewrite (out_symbol _ _ _ _ _ _ _ Hout). exact Hsym.
Qed.

Lemma reachable_books_are_well_formed_witness :
  exists b,
    reachable ex_clock "XYZ" b /\ book_inv b /\ book_symbol b = "XYZ".
Proof.
  assert (H1 : exists r b o,
            add_order ex_clock 0 (init "XYZ") ex_bid = Ok (r, b, o)).
  { do 3 eexists. reflexivity. }
  destruct H1 as (r & b & o & E).
  assert (Hr : reachable ex_clock "XYZ" b).
  { eapply reachable_add; [apply reachable_init | | exact E].
    intros _. discriminate. }
  exists b. split; [exact Hr|].
  exact (reachable_books_are_well_formed ex_clock "XYZ" b Hr).
Defined.

(** ** Edge cases of a call *)

Lemma while_matching_empty : forall body fuel s,
  st_opposite s = [] -> while_matching body fuel s = Ok s.
Proof.
  intros body fuel s E. destruct fuel; simpl;
    destruct (0 <? quantity (st_order s)); rewrite ?E; reflexivity.
Qed.

Lemma while_matching_first : forall body fuel s best rest,
  0 < quantity (st_order s) -> st_opposite s = best :: rest ->
  while_matching body (S fuel) s =
  match body s best rest with
  | Ok (Continue s') => while_matching body fuel s'
  | Ok (Break s') => Ok s'
  | TypeError => TypeError
  | OutOfFuel => OutOfFuel
  end.
Proof.
  intros body fuel s best rest Hq E. simpl.
  destruct (Z.ltb_spec 0 (quantity (st_order s))); [|lia].
  rewrite E. reflexivity.
Qed.

Lemma store_opposite_same : forall b o,
  store_opposite b o (opposite_of b o) = b.
Proof.
  intros b o. rewrite store_opposite_sides, <- book_as_sides. reflexivity.
Qed.

(** X11: with nothing resting on the opposite side a call produces no
    report and does not touch the incoming order; a market order, and any
    order with a quantity that is not positive, leaves the book exactly as
    it was.  The call can only fail on the resting insertion of an order
    that is not a market order into a side that is not empty. *)
Theorem no_liquidity_no_reports : forall now fuel b o,
  opposite_of b o = [] ->
  match add_order now fuel b o with
  | Ok (reports, b', o') =>
      reports = [] /\ o' = o /\ opposite_of b' o = [] /\
      (type o = "market" \/ quantity o <= 0 -> b' = b)
  | TypeError => type o <> "market" /\ 0 < quantity o /\ own_side b o <> []
  | OutOfFuel => False
  end.
Proof.
  intros now fuel b o E.
  destruct (String.eqb_spec (type o) "market") as [Ht|Ht].
  - rewrite add_order_market by assumption.
    rewrite while_matching_empty by exact E. simpl.
    unfold start. simpl. rewrite E at 1.
    rewrite <- E at 1. rewrite store_opposite_same.
    repeat split; auto.
  - rewrite add_order_resting by assumption.
    rewrite while_matching_empty by exact E. unfold start. simpl.
    destruct (Z.ltb_spec 0 (quantity o)) as [Hq|Hq].
    + rewrite E, insert_resting_sides.
      rewrite store_opposite_sides, own_side_of_sides, opposite_of_sides,
        book_symbol_of_sides.
      destruct (insertion_index o (own_side b o) O) as [idx| |] eqn:Ei; simpl.
      * rewrite opposite_of_sides. repeat split.
        intros [Hm|Hle]; [contradiction | lia].
      * repeat split; try assumption.
        intros Hnil. rewrite Hnil in Ei. discriminate.
      * exact (insertion_index_total _ _ _ Ei).
    + unfold finish. simpl. rewrite E at 1. rewrite <- E at 1.
      rewrite store_opposite_same. repeat split; auto.
Qed.

Lemma no_liquidity_no_reports_witness :
  opposite_of (init "XYZ") ex_market_buy = [] /\
  match add_order ex_clock 0 (init "XYZ") ex_market_buy with
  | Ok (reports, b', o') =>
      reports = [] /\ o' = ex_market_buy /\
      opposite_of b' ex_market_buy = [] /\
      (type ex_market_buy = "market" \/ quantity ex_market_buy <= 0 ->
       b' = init "XYZ")
  | TypeError =>
      type ex_market_buy <> "market" /\ 0 < quantity ex_market_buy /\
      own_side (init "XYZ") ex_market_buy <> []
  | OutOfFuel => False
  end.
Proof.
  assert (E : opposite_of (init "XYZ") ex_market_buy = []) by reflexivity.
  split; [exact E|].
  exact (no_liquidity_no_reports ex_clock 0 (init "XYZ") ex_market_buy E).
Defined.

(** X12: a buy or sell order that is not a market order and whose price
    does not reach the best opposite price is passive: the call produces no
    report, leaves the opposite side and the order as they were, and rests
    the whole order on its own side, which gains this one order and keeps
    the order of the others. *)
Theorem passive_limit_order_rests : forall now fuel b o p best,
  type o <> "market" ->
  0 < quantity o ->
  price o = Some p ->
  side o = "buy" \/ side o = "sell" ->
  side_sorted (side o =? "buy")%string (own_side b o) ->
  hd_error (opposite_of b o) = Some best ->
  apart (side o =? "buy")%string o best ->
  exists b' l1 l2,
    add_order now (S fuel) b o = Ok ([], b', o) /\
    book_symbol b' = book_symbol b /\
    opposite_of b' o = opposite_of b o /\
    own_side b o = (l1 ++ l2)%list /\
    own_side b' o = (l1 ++ o :: l2)%list.
Proof.
  intros now fuel b o p best Ht Hq Ep Hside Hs Hbest Hapart.
  destruct (opposite_of b o) as [|best' rest] eqn:Eo; [discriminate|].
  injection Hbest as ->.
  assert (Eb : match_limit_body now (start b o) best rest
               = Ok (Break (start b o))).
  { unfold match_limit_body, start, apart in *. simpl. rewrite Ep in *.
    destruct Hside as [Es|Es]; rewrite Es in *; simpl in *;
      destruct (price best) as [pb|]; simpl in *; try contradiction;
      destruct (Z.ltb_spec p pb), (Z.ltb_spec pb p); try lia; reflexivity. }
  rewrite add_order_resting by assumption.
  rewrite (while_matching_first _ fuel (start b o) best rest Hq)
    by (unfold start; simpl; exact Eo).
  rewrite Eb. unfold start. simpl.
  destruct (Z.ltb_spec 0 (quantity o)); [|lia].
  rewrite Eo, <- Eo, store_opposite_same, insert_resting_sides.
  destruct (insertion_index_sorted o p Ep (own_side b o) O Hs)
    as (l1 & l2 & (El & _ & _) & Ei).
  rewrite Ei. simpl. do 3 eexists. split; [reflexivity|].
  rewrite book_symbol_of_sides, opposite_of_sides, own_side_of_sides.
  split; [reflexivity|]. split; [reflexivity|]. split; [exact El|].
  rewrite El at 1. apply list_insert_app.
Qed.

Lemma passive_limit_order_rests_witness :
  type ex_stop_sell <> "market" /\
  0 < quantity ex_stop_sell /\
  price ex_stop_sell = Some 12 /\
  (side ex_stop_sell = "buy" \/ side ex_stop_sell = "sell") /\
  side_sorted (side ex_stop_sell =? "buy")%string
    (own_side ex_book ex_stop_sell) /\
  hd_error (opposite_of ex_book ex_stop_sell) = Some ex_bid /\
  apart (side ex_stop_sell =? "buy")%string ex_stop_sell ex_bid /\
  exists b' l1 l2,
    add_order ex_clock 1 ex_book ex_stop_sell = Ok ([], b', ex_stop_sell) /\
    book_symbol b' = book_symbol ex_book /\
    opposite_of b' ex_stop_sell = opposite_of ex_book ex_stop_sell /\
    own_side ex_book ex_stop_sell = (l1 ++ l2)%list /\
    own_side b' ex_stop_sell = (l1 ++ ex_stop_sell :: l2)%list.
Proof.
  assert (Ht : type ex_stop_sell <> "market") by discriminate.
  assert (Hq : 0 < quantity ex_stop_sell) by reflexivity.
  assert (Ep : price ex_stop_sell = Some 12) by reflexivity.
  assert (Hside : side ex_stop_sell = "buy" \/ side ex_stop_sell = "sell").
  { right. reflexivity. }
  assert (Hs : side_sorted (side ex_stop_sell =? "buy")%string
                 (own_side ex_book ex_stop_sell)).
  { split; repeat constructor. discriminate. }
  assert (Hb : hd_error (opposite_of ex_book ex_stop_sell) = Some ex_bid).
  { reflexivity. }
  assert (Ha : apart (side ex_stop_sell =? "buy")%string ex_stop_sell ex_bid).
  { simpl. lia. }
  repeat (split; [assumption|]).
  exact (passive_limit_order_rests ex_clock 0 ex_book ex_stop_sell 12 ex_bid
           Ht Hq Ep Hside Hs Hb Ha).
Defined.

(** X13: a missing price is not rejected but raises at the first
    comparison: for a buy or sell order that is not a market order and has
    a positive quantity, the call raises [TypeError] as soon as an order
    rests on the opposite side and the incoming order, or the best opposite
    order, has no price. *)
Theorem unpriced_order_raises : forall now fuel b o best,
  type o <> "market" ->
  0 < quantity o ->
  side o = "buy" \/ side o = "sell" ->
  hd_error (opposite_of b o) = Some best ->
  price o = None \/ price best = None ->
  add_order now (S fuel) b o = TypeError.
Proof.
  intros now fuel b o best Ht Hq Hside Hbest Hnone.
  destruct (opposite_of b o) as [|best' rest] eqn:Eo; [discriminate|].
  injection Hbest as ->.
  assert (Eb : match_limit_body now (start b o) best rest = TypeError).
  { unfold match_limit_body, start. simpl.
    destruct Hside as [Es|Es]; rewrite Es; simpl;
      destruct Hnone as [En|En]; rewrite En;
      destruct (price best), (price o); reflexivity. }
  rewrite add_order_resting by assumption.
  rewrite (while_matching_first _ fuel (start b o) best rest Hq)
    by (unfold start; simpl; exact Eo).
  rewrite Eb. reflexivity.
Qed.

Lemma unpriced_order_raises_witness :
  type (mkOrder "u1" "XYZ" "buy" "limit" None 5) <> "market" /\
  0 < quantity (mkOrder "u1" "XYZ" "buy" "limit" None 5) /\
  (side (mkOrder "u1" "XYZ" "buy" "limit" None 5) = "buy" \/
   side (mkOrder "u1" "XYZ" "buy" "limit" None 5) = "sell") /\
  hd_error (opposite_of ex_book (mkOrder "u1" "XYZ" "buy" "limit" None 5))
    = Some ex_ask /\
  (price (mkOrder "u1" "XYZ" "buy" "limit" None 5) = None \/
   price ex_ask = None) /\
  add_order ex_clock 1 ex_book (mkOrder "u1" "XYZ" "buy" "limit" None 5)
    = TypeError.
Proof.
  set (u := mkOrder "u1" "XYZ" "buy" "limit" None 5).
  assert (Ht : type u <> "market") by discriminate.
  assert (Hq : 0 < quantity u) by reflexivity.
  assert (Hside : side u = "buy" \/ side u = "sell") by (left; reflexivity).
  assert (Hb : hd_error (opposite_of ex_book u) = Some ex_ask) by reflexivity.
  assert (Hn : price u = None \/ price ex_ask = None) by (left; reflexivity).
  repeat (split; [assumption|]).
  exact (unpriced_order_raises ex_clock 0 ex_book u ex_ask Ht Hq Hside Hb Hn).
Defined.

(** X14: a side string that is neither "buy" nor "sell" is not rejected:
    such an order, when it is not a market order, is matched against the
    bids with no price test at all, so the call ends with the order used
    up or with no bid left, and a positive remainder rests among the
    asks. *)
Theorem unknown_side_ignores_price : forall now fuel b o reports b' o',
  type o <> "market" ->
  side o <> "buy" -> side o <> "sell" ->
  add_order now fuel b o = Ok (reports, b', o') ->
  opposite_of b o = bids b /\
  (quantity o' <= 0 \/ bids b' = []) /\
  (0 < quantity o' -> In o' (asks b')).
Proof.
  intros now fuel b o reports b' o' Ht Hnb Hns H.
  destruct (add_order_outcome now fuel b o _ _ _ H) as [sf Hout].
  assert (Eb : (side o =? "buy")%string = false) by (apply String.eqb_neq; auto).
  assert (Eopp : forall x, opposite_of x o = bids x).
  { intros x. unfold opposite_of. rewrite Eb. reflexivity. }
  assert (Eown : forall x, own_side x o = asks x).
  { intros x. unfold own_side. rewrite Eb. reflexivity. }
  split; [apply Eopp|]. split.
  - rewrite <- Eopp, (out_opposite _ _ _ _ _ _ _ Hout).
    destruct (out_exit _ _ _ _ _ _ _ Hout) as [Hz|[Hnil|[_ Hstop]]]; auto.
    exfalso. destruct Hstop as (best & rest & _ & Hs).
    rewrite <- (out_order _ _ _ _ _ _ _ Hout) in Hs.
    rewrite (out_same_order _ _ _ _ _ _ _ Hout) in Hs. simpl in Hs.
    destruct Hs as [[Es _]|[Es _]]; contradiction.
  - intros Hq.
    destruct (out_own_rests _ _ _ _ _ _ _ Hout Ht Hq) as (idx & _ & E).
    rewrite Eown in E. rewrite E. unfold list_insert.
    apply in_or_app. right. left. reflexivity.
Qed.

Lemma unknown_side_ignores_price_witness :
  type (mkOrder "w1" "XYZ" "hold" "limit" (Some 1000) 150) <> "market" /\
  side (mkOrder "w1" "XYZ" "hold" "limit" (Some 1000) 150) <> "buy" /\
  side (mkOrder "w1" "XYZ" "hold" "limit" (Some 1000) 150) <> "sell" /\
  exists reports b' o',
    add_order ex_clock 1 ex_book
      (mkOrder "w1" "XYZ" "hold" "limit" (Some 1000) 150)
      = Ok (reports, b', o') /\
    opposite_of ex_book (mkOrder "w1" "XYZ" "hold" "limit" (Some 1000) 150)
      = bids ex_book /\
    (quantity o' <= 0 \/ bids b' = []) /\
    (0 < quantity o' -> In o' (asks b')).
Proof.
  set (w := mkOrder "w1" "XYZ" "hold" "limit" (Some 1000) 150).
  assert (Ht : type w <> "market") by discriminate.
  assert (Hb : side w <> "buy") by discriminate.
  assert (Hs : side w <> "sell") by discriminate.
  repeat (split; [assumption|]).
  do 3 eexists. split; [reflexivity|].
  exact (unknown_side_ignores_price ex_clock 1 ex_book w _ _ _ Ht Hb Hs eq_refl).
Defined.

(** X15: an order that is not a market order rests exactly when matching
    leaves it a positive remainder: it then enters its own side once, with
    that remainder as its quantity and the other orders of the side in
    their former order; an order left with nothing does not enter the
    book.  The order itself changes in its quantity only. *)
Theorem remainder_rests : forall now fuel b o reports b' o',
  type o <> "market" ->
  add_order now fuel b o = Ok (reports, b', o') ->
  o' = with_quantity o (quantity o') /\
  (0 < quantity o' ->
   exists l1 l2,
     own_side b o = (l1 ++ l2)%list /\
     own_side b' o = (l1 ++ o' :: l2)%list) /\
  (quantity o' <= 0 -> own_side b' o = own_side b o).
Proof.
  intros now fuel b o reports b' o' Ht H.
  destruct (add_order_outcome now fuel b o _ _ _ H) as [sf Hout].
  split; [exact (out_same_order _ _ _ _ _ _ _ Hout)|]. split.
  - intros Hq.
    destruct (out_own_rests _ _ _ _ _ _ _ Hout Ht Hq) as (idx & _ & E).
    exists (firstn idx (own_side b o)), (skipn idx (own_side b o)).
    split; [symmetry; apply firstn_skipn | exact E].
  - exact (out_own_filled _ _ _ _ _ _ _ Hout Ht).
Qed.

Lemma remainder_rests_witness :
  type ex_limit_buy <> "market" /\
  exists reports b' o',
    add_order ex_clock 1 ex_book ex_limit_buy = Ok (reports, b', o') /\
    o' = with_quantity ex_limit_buy (quantity o') /\
    (0 < quantity o' ->
     exists l1 l2,
       own_side ex_book ex_limit_buy = (l1 ++ l2)%list /\
       own_side b' ex_limit_buy = (l1 ++ o' :: l2)%list) /\
    (quantity o' <= 0 -> own_side b' ex_limit_buy = own_side ex_book ex_limit_buy).
Proof.
  assert (Ht : type ex_limit_buy <> "market") by discriminate.
  split; [exact Ht|].
  do 3 eexists. split; [reflexivity|].
  exact (remainder_rests ex_clock 1 ex_book ex_limit_buy _ _ _ Ht eq_refl).
Defined.

(** ** Prices along a call *)

Lemma sorted_prices : forall buy l,
  side_sorted buy l ->
  StronglySorted (price_rel (goes_before buy)) (map price l).
Proof.
  intros buy l [_ Hs]. induction Hs as [|x l _ IH Hx]; simpl; constructor.
  - assumption.
  - apply Forall_map. exact Hx.
Qed.

(** X16: a call walks the opposite side from the best price on: when the
    opposite side is sorted, the execution prices of the successive fills
    are in the priority order of that side, so for a buy order every later
    fill is at the same or a higher price, and for a sell order at the same
    or a lower one. *)
Theorem fills_walk_the_book : forall now fuel b o reports b' o',
  side_sorted (negb (side o =? "buy")%string) (opposite_of b o) ->
  add_order now fuel b o = Ok (reports, b', o') ->
  StronglySorted (price_rel (goes_before (negb (side o =? "buy")%string)))
    (map rep_price (makers reports)).
Proof.
  intros now fuel b o reports b' o' Hs H.
  destruct (add_order_outcome now fuel b o _ _ _ H) as [sf Hout].
  rewrite (out_reports _ _ _ _ _ _ _ Hout).
  destruct (iterates_makers (option Z) rep_price price now o (start b o) sf
              (fun _ _ _ _ => eq_refl) eq_refl
              (out_iterates _ _ _ _ _ _ _ Hout))
    as [(done & Hopp & ->) | (_ & done & h & rem & q' & Hopp & _ & ->)];
    simpl in Hopp; rewrite Hopp in Hs.
  - apply side_sorted_app_inv in Hs. apply sorted_prices. apply Hs.
  - change (h :: rem) with ([h] ++ rem)%list in Hs.
    rewrite app_assoc in Hs.
    apply side_sorted_app_inv in Hs. apply sorted_prices. apply Hs.
Qed.

Lemma fills_walk_the_book_witness :
  side_sorted (negb (side ex_sweep =? "buy")%string)
    (opposite_of ex_deep_book ex_sweep) /\
  exists reports b' o',
    add_order ex_clock 3 ex_deep_book ex_sweep = Ok (reports, b', o') /\
    StronglySorted
      (price_rel (goes_before (negb (side ex_sweep =? "buy")%string)))
      (map rep_price (makers reports)).
Proof.
  assert (Hs : side_sorted (negb (side ex_sweep =? "buy")%string)
                 (opposite_of ex_deep_book ex_sweep)).
  { split; repeat constructor; try discriminate; simpl; lia. }
  split; [exact Hs|].
  do 3 eexists. split; [reflexivity|].
  exact (fills_walk_the_book ex_clock 3 ex_deep_book ex_sweep _ _ _ Hs eq_refl).
Defined.

(** ** Market orders never rest *)

(** The maker reports of a run tell exactly what the run has taken from
    the opposite sequence. *)
Lemma iterates_fills : forall now o s0 s,
  st_reports s0 = [] ->
  iterates (body_of now o) s0 s ->
  left_by_fills (st_opposite s0) (st_reports s) (st_opposite s)
    (quantity (st_order s)).
Proof.
  intros now o s0 s E0 Hit.
  apply (iterates_inv (body_of now o)
    (fun s =>
       (exists n, List.length (st_reports s) = (2 * n)%nat) /\
       left_by_fills (st_opposite s0) (st_reports s) (st_opposite s)
         (quantity (st_order s)))
    s0); [| |exact Hit].
  - rewrite E0. split; [exists O; reflexivity|].
    left. exists []. repeat split.
  - intros s1 best rest s' ([n Hn] & Hcase) Hq Eo Eb.
    destruct (body_of_fills now o _ _ _ _ Eb) as [st ->].
    split; [exists (S n); simpl; rewrite length_app; simpl; lia|].
    destruct Hcase as [(done & Hopp & Hids & Hqs) | (Hz & _)]; [|lia].
    unfold left_by_fills. simpl.
    rewrite (makers_app_pair n) by assumption.
    rewrite !map_app, Hids, Hqs. simpl. rewrite Eo in Hopp.
    unfold settle_head. simpl.
    destruct (Z.eqb_spec
                (quantity best - Z.min (quantity (st_order s1)) (quantity best))
                0) as [E|E].
    + left. exists (done ++ [best])%list.
      rewrite <- app_assoc, !map_app. simpl.
      split; [assumption|]. split; [reflexivity|].
      do 2 f_equal. lia.
    + right. split; [lia|].
      exists done, best, rest. eexists.
      split; [exact Hopp|]. split; [reflexivity|]. split; [exact E|].
      rewrite map_app. simpl. split; [reflexivity|]. do 2 f_equal. lia.
Qed.

(** C7, as the code has it: a market order never rests.  The call returns
    without error; the symbol and the order's own side are as they were;
    the opposite side changes by the reported fills and by nothing else
    (the orders filled whole are gone, a last order filled in part stays at
    the head with its quantity less that fill, the orders behind are
    untouched), so an order whose identifier was not in the book is not in
    it afterwards; the order comes back changed in its quantity only, and
    that quantity is what was left unfilled: the requested quantity less
    the filled quantities of the taker reports.  The remainder is dropped:
    no later call sees it. *)
Theorem market_order_never_rests : forall now fuel b o,
  type o = "market" ->
  (List.length (opposite_of b o) <= fuel)%nat ->
  exists reports b' o',
    add_order now fuel b o = Ok (reports, b', o') /\
    book_symbol b' = book_symbol b /\
    own_side b' o = own_side b o /\
    left_by_fills (opposite_of b o) reports (opposite_of b' o) (quantity o') /\
    (~ In (id o) (map id (bids b ++ asks b)) ->
     ~ In (id o) (map id (bids b' ++ asks b'))) /\
    o' = with_quantity o (quantity o') /\
    quantity o' = quantity o - total_filled (takers reports).
Proof.
  intros now fuel b o Ht Hfuel.
  assert (Hret : exists res, add_order now fuel b o = Ok res).
  { rewrite add_order_market by assumption. unfold start.
    destruct (market_loop_spec now o (fun _ => True) _ fuel stable_true I Hfuel)
      as (s' & -> & _). simpl. eauto. }
  destruct Hret as ([[reports b'] o'] & H).
  exists reports, b', o'. split; [exact H|].
  destruct (add_order_outcome now fuel b o _ _ _ H) as [sf Hout].
  pose proof (out_iterates _ _ _ _ _ _ _ Hout) as Hit.
  pose proof (iterates_fills now o (start b o) sf eq_refl Hit) as Hleft.
  destruct (iterates_accounts now o (start b o) sf eq_refl Hit)
    as (_ & Hacc & _).
  rewrite <- (out_reports _ _ _ _ _ _ _ Hout),
    <- (out_order _ _ _ _ _ _ _ Hout),
    <- (out_opposite _ _ _ _ _ _ _ Hout) in Hleft.
  rewrite <- (out_reports _ _ _ _ _ _ _ Hout),
    <- (out_order _ _ _ _ _ _ _ Hout) in Hacc.
  simpl in Hleft, Hacc.
  pose proof (out_own_market _ _ _ _ _ _ _ Hout Ht) as Hown.
  split; [exact (out_symbol _ _ _ _ _ _ _ Hout)|].
  split; [exact Hown|]. split; [exact Hleft|].
  split; [|split; [exact (out_same_order _ _ _ _ _ _ _ Hout) | lia]].
  intros Hfresh Hin. apply Hfresh. clear Hfresh.
  assert (Hopp : forall x, In x (opposite_of b' o) ->
                   In (id x) (map id (opposite_of b o))).
  { intros x Hx.
    destruct Hleft as [(done & -> & _) | (_ & done & h & rem & q' & -> & E & _)].
    - apply in_map, in_or_app. right. exact Hx.
    - rewrite E in Hx. rewrite map_app, in_app_iff. right.
      destruct Hx as [<-|Hx]; [left; reflexivity | right; apply in_map; exact Hx]. }
  rewrite in_map_iff in Hin. destruct Hin as (x & Ex & Hx). rewrite <- Ex.
  assert (Hold : In (id x) (map id (own_side b o)) \/
                 In (id x) (map id (opposite_of b o))).
  { assert (Hsides : In x (own_side b' o) \/ In x (opposite_of b' o)).
    { unfold own_side, opposite_of.
      destruct (side o =? "buy")%string; apply in_app_or in Hx; tauto. }
    destruct Hsides as [Hx'|Hx']; [left; rewrite <- Hown; apply in_map; exact Hx'
                                 | right; apply Hopp; exact Hx']. }
  rewrite map_app, in_app_iff.
  unfold own_side, opposite_of in Hold.
  destruct (side o =? "buy")%string; tauto.
Qed.

Lemma market_order_never_rests_witness :
  type ex_market_buy = "market" /\
  (List.length (opposite_of ex_book ex_market_buy) <= 1)%nat /\
  exists reports b' o',
    add_order ex_clock 1 ex_book ex_market_buy = Ok (reports, b', o') /\
    book_symbol b' = book_symbol ex_book /\
    own_side b' ex_market_buy = own_side ex_book ex_market_buy /\
    left_by_fills (opposite_of ex_book ex_market_buy) reports
      (opposite_of b' ex_market_buy) (quantity o') /\
    (~ In (id ex_market_buy) (map id (bids ex_book ++ asks ex_book)) ->
     ~ In (id ex_market_buy) (map id (bids b' ++ asks b'))) /\
    o' = with_quantity ex_market_buy (quantity o') /\
    quantity o' = quantity ex_market_buy - total_filled (takers reports).
Proof.
  assert (Ht : type ex_market_buy = "market") by reflexivity.
  assert (Hl : (List.length (opposite_of ex_book ex_market_buy) <= 1)%nat).
  { simpl. lia. }
  split; [exact Ht|]. split; [exact Hl|].
  exact (market_order_never_rests ex_clock 1 ex_book ex_market_buy Ht Hl).
Defined.

(** C7, as the claim has it, fails: the unfilled remainder does not show in
    the reports only.  A market order for 100 against a single ask of 30
    comes back from the call with quantity 70, the remainder itself: the
    loop decrements [order.quantity] in place. *)
Lemma market_remainder_shows_on_the_order :
  (exists reports b' o',
     add_order ex_clock 1 ex_book ex_market_buy = Ok (reports, b', o') /\
     quantity ex_market_buy = 100 /\
     total_filled (takers reports) = 30 /\
     quantity o' = 70) /\
  ~ remainder_only_in_reports ex_clock 1 ex_book ex_market_buy.
Proof.
  split.
  - do 3 eexists. split; [reflexivity|]. repeat split.
  - intros H. specialize (H _ _ _ eq_refl). discriminate H.
Qed.
